(** * lineflow.core: a shallow embedding of the dataset composition engine

    The development follows [src/lineflow/core.py]: the classes [Dataset],
    [ConcatDataset], [MapDataset], [CacheDataset], [SingleTextDataset] and
    [TextDataset], with the Python built-ins they rely on (list indexing,
    [slice.indices], [range], [bisect], [zip], text-mode line iteration,
    [linecache.getline], [mmap.readline], [str.rstrip]) written out as
    executable functions. *)

From Stdlib Require Import ZArith Lia Ascii String DecimalString.
From stdpp Require Import base option list gmap strings.

Local Open Scope Z_scope.

(** ** Exceptions and the error monad *)

Inductive exn : Type :=
  | IndexError
  | ValueError
  | AssertionError
  | FileNotFoundError
  | PickleError.

Inductive result (T : Type) : Type :=
  | Ok (x : T)
  | Raise (e : exn).
Arguments Ok {T} x.
Arguments Raise {T} e.

Definition bind {T U : Type} (m : result T) (k : T -> result U) : result U :=
  match m with
  | Ok x => k x
  | Raise e => Raise e
  end.

Notation "'let*' x ':=' m 'in' k" := (bind m (fun x => k))
  (at level 10, x name, m at level 100, k at level 200).

(** [[k(x) for x in xs]], stopping at the first exception. *)
Fixpoint mapM {T U : Type} (k : T -> result U) (xs : list T) : result (list U) :=
  match xs with
  | [] => Ok []
  | x :: xs' => let* y := k x in let* ys := mapM k xs' in Ok (y :: ys)
  end.

(** ** Python built-ins *)

Module Py.

(** [xs[i]] on a list or tuple: negative indices count from the end, and an
    index outside [-len, len) raises IndexError. *)
Definition list_getitem {T : Type} (xs : list T) (i : Z) : result T :=
  let n := Z.of_nat (length xs) in
  let k := if i <? 0 then i + n else i in
  if (k <? 0) || (n <=? k) then Raise IndexError
  else match xs !! Z.to_nat k with
       | Some x => Ok x
       | None => Raise IndexError
       end.

(** The built-in [len()] refuses a negative [__len__] with ValueError. *)
Definition len_result (n : Z) : result Z :=
  if n <? 0 then Raise ValueError else Ok n.

(** [slice(start, stop, step).indices(length)]. *)
Definition slice_indices (start stop step : option Z) (length : Z)
  : result (Z * Z * Z) :=
  let step := match step with None => 1 | Some s => s end in
  if step =? 0 then Raise ValueError
  else
    let lower := if step <? 0 then -1 else 0 in
    let upper := if step <? 0 then length - 1 else length in
    let clamp (v : Z) :=
      if v <? 0 then Z.max (v + length) lower else Z.min v upper in
    let start := match start with
                 | None => if step <? 0 then upper else lower
                 | Some v => clamp v
                 end in
    let stop := match stop with
                | None => if step <? 0 then lower else upper
                | Some v => clamp v
                end in
    Ok (start, stop, step).

(** Number of elements of [range(start, stop, step)] for [step <> 0]. *)
Definition range_len (start stop step : Z) : Z :=
  if 0 <? step then
    if start <? stop then (stop - start - 1) / step + 1 else 0
  else
    if stop <? start then (start - stop - 1) / (- step) + 1 else 0.

(** [list(range(start, stop, step))]. *)
Definition range (start stop step : Z) : list Z :=
  (fun k : nat => start + Z.of_nat k * step)
    <$> seq 0 (Z.to_nat (range_len start stop step)).

(** [itertools.accumulate] with the default addition. *)
Fixpoint accumulate_from (acc : Z) (xs : list Z) : list Z :=
  match xs with
  | [] => []
  | x :: xs' => (acc + x) :: accumulate_from (acc + x) xs'
  end.

Definition accumulate (xs : list Z) : list Z := accumulate_from 0 xs.

(** [bisect.bisect] (that is, [bisect_right]): the loop
    [while lo < hi: mid = (lo + hi) // 2; if x < a[mid]: hi = mid else: lo = mid + 1].
    [None] means the fuel ran out before the loop ended. *)
Fixpoint bisect_loop (fuel : nat) (a : list Z) (x : Z) (lo hi : nat) : option nat :=
  if (lo <? hi)%nat then
    match fuel with
    | O => None
    | S fuel' =>
        let mid := ((lo + hi) / 2)%nat in
        match a !! mid with
        | Some v =>
            if x <? v then bisect_loop fuel' a x lo mid
            else bisect_loop fuel' a x (S mid) hi
        | None => None
        end
    end
  else Some lo.

Definition bisect (a : list Z) (x : Z) : option nat :=
  bisect_loop (length a) a x 0 (length a).

(** [zip] over a list of iterables: tuples are formed while every iterable still has an
    element; no iterable at all gives no tuple. *)
Fixpoint zip_all {T : Type} (ls : list (list T)) : list (list T) :=
  match ls with
  | [] => []
  | l :: rest =>
      match rest with
      | [] => (fun x => [x]) <$> l
      | _ :: _ => zip_with cons l (zip_all rest)
      end
  end.

(** [xs[:-1]]. *)
Definition drop_last {T : Type} (xs : list T) : list T :=
  take (length xs - 1)%nat xs.

End Py.

(** ** Text files

    A file system maps a path to the content of the regular file stored
    there.  Contents are taken as already decoded text (the [encoding]
    argument of the text datasets is the identity here), on a POSIX platform
    where [os.linesep] is the single character LF. *)

Abbreviation filesystem := (gmap string string).

Module File.

Definition LF : ascii := "010"%char.
Definition CR : ascii := "013"%char.

Definition os_linesep : string := String LF EmptyString.

(** Universal newlines, as applied by a file opened in text mode with the
    default [newline=None]: CR LF and a lone CR are both read as LF. *)
Fixpoint translate_newlines (s : string) : string :=
  match s with
  | EmptyString => EmptyString
  | String c rest =>
      if Ascii.eqb c CR then
        match rest with
        | String c' rest' =>
            if Ascii.eqb c' LF then String LF (translate_newlines rest')
            else String LF (translate_newlines rest)
        | EmptyString => String LF EmptyString
        end
      else String c (translate_newlines rest)
  end.

(** Successive [readline()] results up to end of file: every line keeps its
    terminating LF, and a last line without one is returned as it is. *)
Fixpoint readlines (s : string) : list string :=
  match s with
  | EmptyString => []
  | String c rest =>
      if Ascii.eqb c LF then String c EmptyString :: readlines rest
      else match readlines rest with
           | [] => [String c EmptyString]
           | l :: ls => String c l :: ls
           end
  end.

(** The lines seen by [for line in f] on a file opened in text mode. *)
Definition text_lines (content : string) : list string :=
  readlines (translate_newlines content).

Fixpoint mem (c : ascii) (chars : string) : bool :=
  match chars with
  | EmptyString => false
  | String c' chars' => Ascii.eqb c c' || mem c chars'
  end.

(** [s.rstrip(chars)]: drops every trailing character that occurs in [chars]. *)
Fixpoint rstrip (chars : string) (s : string) : string :=
  match s with
  | EmptyString => EmptyString
  | String c rest =>
      match rstrip chars rest with
      | EmptyString => if mem c chars then EmptyString else String c EmptyString
      | r => String c r
      end
  end.

(** [path.open(encoding=...)] for reading. *)
Definition open (fs : filesystem) (path : string) : result string :=
  match fs !! path with
  | Some content => Ok content
  | None => Raise FileNotFoundError
  end.

(** [path.is_file()]. *)
Definition is_file (fs : filesystem) (path : string) : bool :=
  bool_decide (is_Some (fs !! path)).

(** [s.endswith(LF)]. *)
Fixpoint endswith_LF (s : string) : bool :=
  match s with
  | EmptyString => false
  | String c rest =>
      match rest with
      | EmptyString => Ascii.eqb c LF
      | String _ _ => endswith_LF rest
      end
  end.

(** [if lines and not lines[-1].endswith(LF): lines[-1] += LF]. *)
Fixpoint terminate_last (lines : list string) : list string :=
  match lines with
  | [] => []
  | l :: ls =>
      match ls with
      | [] => [if endswith_LF l then l else (l ++ String LF EmptyString)%string]
      | _ :: _ => l :: terminate_last ls
      end
  end.

(** [linecache.getlines]: the lines of the file read in text mode, the last
    one completed with LF; no line at all when the file cannot be read. *)
Definition getlines (fs : filesystem) (path : string) : list string :=
  match fs !! path with
  | Some content => terminate_last (text_lines content)
  | None => []
  end.

(** [linecache.getline(path, lineno)]: line numbers start at 1, and any
    other number gives the empty string. *)
Definition getline (fs : filesystem) (path : string) (lineno : Z) : string :=
  let lines := getlines fs path in
  if (1 <=? lineno) && (lineno <=? Z.of_nat (length lines)) then
    match lines !! Z.to_nat (lineno - 1) with
    | Some l => l
    | None => EmptyString
    end
  else EmptyString.

(** [_count_lines]: the file is mapped into memory ([mmap] refuses an empty
    file with ValueError) and [mm.readline()] is called until it returns the
    empty bytes; the map is read raw, so only LF ends a line. *)
Definition count_lines (fs : filesystem) (path : string) : result Z :=
  let* content := open fs path in
  match content with
  | EmptyString => Raise ValueError
  | _ => Ok (Z.of_nat (length (readlines content)))
  end.

End File.

(** ** The dataset classes *)

Section Core.

Context {A : Type}.

(** Elements: opaque values of the raw sequences, the lines of a single text
    file, and the tuples of lines of several text files. *)
Inductive elem : Type :=
  | Atom (a : A)
  | Str (s : string)
  | Tuple (ss : list string).

(** The instance layout of each class.  The attribute [_dataset] holds either
    a raw in-memory sequence or another dataset object; the lazily filled
    [_length] attribute is kept apart, in [obj] below. *)
#[local] Unset Elimination Schemes.
Inductive dataset : Type :=
  | Dataset (_dataset : source)
  | ConcatDataset (_datasets : list dataset) (_lengths : list Z) (_offsets : list Z)
  | MapDataset (_dataset : source) (_map_func_list : list (elem -> elem))
  | CacheDataset (_dataset : source) (_map_func_list : list (elem -> elem))
                 (_cache : list elem)
  | SingleTextDataset (_filepath : string)
  | TextDataset (_filepaths : list string)
with source : Type :=
  | Raw (xs : list elem)
  | Node (d : dataset).
#[local] Set Elimination Schemes.

(** [for map_func in self._map_func_list: x = map_func(x)]. *)
Definition apply_map_funcs (fl : list (elem -> elem)) (x : elem) : elem :=
  fold_left (fun x map_func => map_func x) fl x.

Definition strip_line (l : string) : string := File.rstrip File.os_linesep l.

(** [d._dataset]: an attribute for [Dataset], [MapDataset] and
    [CacheDataset], a property returning [self] for the other classes. *)
Definition get_dataset (d : dataset) : source :=
  match d with
  | Dataset src => src
  | MapDataset src _ => src
  | CacheDataset src _ _ => src
  | ConcatDataset _ _ _ => Node d
  | SingleTextDataset _ => Node d
  | TextDataset _ => Node d
  end.

(** [len(d)] with the value [get_length] computes; for [ConcatDataset] it is
    the value stored at construction, [self._lengths[-1]], the only one the
    check of the built-in [len()] can refuse. *)
Fixpoint len (fs : filesystem) (d : dataset) : result Z :=
  match d with
  | Dataset src => source_len fs src
  | MapDataset src _ => source_len fs src
  | CacheDataset src _ _ => source_len fs src
  | ConcatDataset _ lengths _ =>
      let* n := Py.list_getitem lengths (-1) in Py.len_result n
  | SingleTextDataset filepath => File.count_lines fs filepath
  | TextDataset filepaths =>
      let* p := Py.list_getitem filepaths 0 in File.count_lines fs p
  end
with source_len (fs : filesystem) (src : source) : result Z :=
  match src with
  | Raw xs => Ok (Z.of_nat (length xs))
  | Node d => len fs d
  end.

(** [d.get_example(i)]; [source_getitem] is [self._dataset[i]]. *)
Fixpoint get_example (fs : filesystem) (d : dataset) (i : Z) : result elem :=
  match d with
  | Dataset src => source_getitem fs src i
  | ConcatDataset datasets lengths offsets =>
      match Py.bisect lengths i with
      | Some j =>
          (fix pick (ds : list dataset) (k : nat) {struct ds} : result elem :=
             match ds with
             | [] => Raise IndexError
             | d' :: ds' =>
                 match k with
                 | O => let* off := Py.list_getitem offsets (Z.of_nat j) in
                        get_example fs d' (i - off)
                 | S k' => pick ds' k'
                 end
             end) datasets j
      | None => Raise ValueError
      end
  | MapDataset src fl =>
      let* x := source_getitem fs src i in Ok (apply_map_funcs fl x)
  | CacheDataset _ _ cache => Py.list_getitem cache i
  | SingleTextDataset filepath =>
      Ok (Str (strip_line (File.getline fs filepath (i + 1))))
  | TextDataset filepaths =>
      Ok (Tuple ((fun p => strip_line (File.getline fs p (i + 1))) <$> filepaths))
  end
with source_getitem (fs : filesystem) (src : source) (i : Z) : result elem :=
  match src with
  | Raw xs => Py.list_getitem xs i
  | Node d => get_example fs d i
  end.

(** [list(d)]: the elements [d.__iter__()] yields, drained. *)
Fixpoint iter (fs : filesystem) (d : dataset) : result (list elem) :=
  match d with
  | Dataset src => source_iter fs src
  | ConcatDataset datasets _ _ =>
      (fix chain (ds : list dataset) : result (list elem) :=
         match ds with
         | [] => Ok []
         | d' :: ds' =>
             let* xs := iter fs d' in
             let* ys := chain ds' in
             Ok (xs ++ ys)
         end) datasets
  | MapDataset src fl =>
      let* xs := source_iter fs src in Ok (apply_map_funcs fl <$> xs)
  | CacheDataset _ _ cache => Ok cache
  | SingleTextDataset filepath =>
      let* content := File.open fs filepath in
      Ok ((fun l => Str (strip_line l)) <$> File.text_lines content)
  | TextDataset filepaths =>
      let* fps := mapM (File.open fs) filepaths in
      Ok ((fun lines => Tuple (strip_line <$> lines))
            <$> Py.zip_all (File.text_lines <$> fps))
  end
with source_iter (fs : filesystem) (src : source) : result (list elem) :=
  match src with
  | Raw xs => Ok xs
  | Node d => iter fs d
  end.

(** *** Constructors *)

(** The assignment to [self._dataset] in [Dataset.__init__]. *)
Definition init_dataset (arg : source) : source :=
  match arg with
  | Raw xs => Raw xs
  | Node d => get_dataset d
  end.

Definition Dataset_init (arg : source) : dataset := Dataset (init_dataset arg).

(** [isinstance(arg, MapDataset)], with [arg._map_func_list] when it holds;
    [CacheDataset] is a subclass of [MapDataset]. *)
Definition as_MapDataset (arg : source) : option (list (elem -> elem)) :=
  match arg with
  | Node (MapDataset _ fl) => Some fl
  | Node (CacheDataset _ fl _) => Some fl
  | _ => None
  end.

Definition MapDataset_init (arg : source) (map_func : elem -> elem) : dataset :=
  let map_func_list :=
    match as_MapDataset arg with
    | Some fl => fl ++ [map_func]
    | None => [map_func]
    end in
  MapDataset (init_dataset arg) map_func_list.

Definition CacheDataset_init (arg : source) (cache : list elem) : dataset :=
  let map_func_list :=
    match as_MapDataset arg with
    | Some fl => fl
    | None => []
    end in
  CacheDataset (init_dataset arg) map_func_list cache.

Definition ConcatDataset_init (fs : filesystem) (datasets : list dataset)
  : result dataset :=
  let* lens := mapM (len fs) datasets in
  let lengths := Py.accumulate lens in
  let* _length := Py.list_getitem lengths (-1) in
  Ok (ConcatDataset datasets lengths (0 :: Py.drop_last lengths)).

Definition SingleTextDataset_init (fs : filesystem) (filepath : string)
  : result dataset :=
  if File.is_file fs filepath then Ok (SingleTextDataset filepath)
  else Raise AssertionError.


(** *** Methods of [Dataset] *)

Inductive index : Type :=
  | Int (i : Z)
  | Slice (start stop step : option Z).

Inductive item : Type :=
  | One (x : elem)
  | Many (xs : list elem).

Definition getitem (fs : filesystem) (d : dataset) (idx : index) : result item :=
  match idx with
  | Slice start stop step =>
      let* n := len fs d in
      let* r := Py.slice_indices start stop step n in
      let '(start, stop, step) := r in
      let* xs := mapM (get_example fs d) (Py.range start stop step) in
      Ok (Many xs)
  | Int i => let* x := get_example fs d i in Ok (One x)
  end.

Definition map_ (d : dataset) (map_func : elem -> elem) : dataset :=
  MapDataset_init (Node d) map_func.

Definition add (fs : filesystem) (d other : dataset) : result dataset :=
  ConcatDataset_init fs [d; other].

Definition concat_ (fs : filesystem) (d : dataset) (datasets : list dataset)
  : result dataset :=
  ConcatDataset_init fs (d :: datasets).

(** [list(self)]: CPython asks the object for a length hint before it
    iterates, which calls [__len__] on a class that defines it and lets any
    exception but TypeError through. *)
Definition list_ (fs : filesystem) (d : dataset) : result (list elem) :=
  let* _ := len fs d in iter fs d.

Definition all (fs : filesystem) (d : dataset) : result (list elem) := list_ fs d.

(** *** Snapshot persistence

    [pickle] is kept abstract: [pickle_dumps] may refuse a value, and
    [pickle_loads] may refuse a blob. *)
Section Persistence.

Variable pickle_dumps : list elem -> result string.
Variable pickle_loads : string -> result (list elem).

(** [save]: the result is the file system after the write and the returned
    node.  What is left at [filename] when pickling fails is not modelled. *)
Definition save (fs : filesystem) (d : dataset) (filename : string)
  : result (filesystem * dataset) :=
  let* cache := list_ fs d in
  let* blob := pickle_dumps cache in
  Ok (<[filename := blob]> fs, CacheDataset_init (Node d) cache).

Definition load (fs : filesystem) (filename : string) : result dataset :=
  let* blob := File.open fs filename in
  let* xs := pickle_loads blob in
  Ok (Dataset_init (Raw xs)).

End Persistence.

(** *** The lazily filled length

    An object is a node together with its [_length] attribute. *)
Record obj : Type := { node : dataset; _length : option Z }.

(** The value of [_length] when a constructor returns: [ConcatDataset] has
    stored [self._lengths[-1]]; every other constructor leaves [None]
    ([CacheDataset.__init__] stores [len(self._cache)] first, and the
    [Dataset.__init__] it then calls puts [None] back). *)
Definition new (d : dataset) : obj :=
  {| node := d;
     _length := match d with
                | ConcatDataset _ lengths _ => last lengths
                | _ => None
                end |}.

(** [__len__]: the result and the object after the call. *)
Definition __len__ (get_length : dataset -> result Z) (o : obj)
  : result (Z * obj) :=
  match _length o with
  | None =>
      let* n := get_length (node o) in
      Ok (n, {| node := node o; _length := Some n |})
  | Some n => Ok (n, o)
  end.

(** The public methods, and the receiver after a call: the only writes to
    [self._length] outside the constructors are those of [__len__], which
    [__getitem__] runs for a slice, [ConcatDataset.__init__] runs on each of
    its arguments, the receiver of [+] and [concat] first, and [list(self)]
    runs in [all] and [save]. *)
Inductive method : Type :=
  | m_iter
  | m_getitem (idx : index)
  | m_len
  | m_add (other : dataset)
  | m_get_example (i : Z)
  | m_get_length
  | m_map (map_func : elem -> elem)
  | m_concat (datasets : list dataset)
  | m_all
  | m_take (n : nat)
  | m_first
  | m_save (filename : string).

Definition after_len (get_length : dataset -> result Z) (o : obj) : obj :=
  match __len__ get_length o with
  | Ok (_, o') => o'
  | Raise _ => o
  end.

Definition call (get_length : dataset -> result Z) (o : obj) (m : method) : obj :=
  match m with
  | m_len => after_len get_length o
  | m_getitem (Slice _ _ _) => after_len get_length o
  | m_add _ => after_len get_length o
  | m_concat _ => after_len get_length o
  | m_all => after_len get_length o
  | m_save _ => after_len get_length o
  | _ => o
  end.

(** A sequence of calls, each under the [get_length] its moment offers. *)
Definition run (o : obj) (calls : list ((dataset -> result Z) * method)) : obj :=
  fold_left (fun o c => call (fst c) o (snd c)) calls o.

(** *** Function lists as heap objects

    [MapDataset.__init__] on a store of list objects: [copy.deepcopy] of a
    list of functions allocates a new list holding the same functions, and
    [append] updates the list object it is called on. *)
Definition deepcopy (σ : gmap positive (list (elem -> elem))) (l : positive)
  : option (gmap positive (list (elem -> elem)) * positive) :=
  match σ !! l with
  | Some fl => let l' := fresh (dom σ) in Some (<[l' := fl]> σ, l')
  | None => None
  end.

Definition append (σ : gmap positive (list (elem -> elem))) (l : positive)
    (map_func : elem -> elem) : gmap positive (list (elem -> elem)) :=
  alter (fun fl => fl ++ [map_func]) l σ.

(** [upstream] is the location of [dataset._map_func_list] when [dataset] is
    a [MapDataset]; the result is the store after the call and the location
    bound to [self._map_func_list]. *)
Definition MapDataset_init_lists (σ : gmap positive (list (elem -> elem)))
    (upstream : option positive) (map_func : elem -> elem)
  : option (gmap positive (list (elem -> elem)) * positive) :=
  match upstream with
  | Some l =>
      match deepcopy σ l with
      | Some (σ1, l') => Some (append σ1 l' map_func, l')
      | None => None
      end
  | None => let l' := fresh (dom σ) in Some (<[l' := [map_func]]> σ, l')
  end.

End Core.

Arguments elem A : clear implicits.
Arguments dataset A : clear implicits.
Arguments source A : clear implicits.
Arguments index : clear implicits.
Arguments item A : clear implicits.
Arguments obj A : clear implicits.
Arguments method A : clear implicits.

(** * Specification vocabulary *)

(** A list in non-decreasing order, as [bisect] expects it. *)
Definition sorted (a : list Z) : Prop :=
  forall (i j : nat) (v w : Z),
    (i <= j)%nat -> a !! i = Some v -> a !! j = Some w -> v <= w.

Definition sum (xs : list Z) : Z := foldr Z.add 0 xs.

(** The least length among the lists of [ls]. *)
Fixpoint min_length {T : Type} (ls : list (list T)) : nat :=
  match ls with
  | [] => 0
  | l :: rest =>
      match rest with
      | [] => length l
      | _ :: _ => Nat.min (length l) (min_length rest)
      end
  end.

(** Induction over nodes and their sources, through the children of a
    concatenation. *)
Section dataset_induction.
Context {A : Type}.
Variables (P : dataset A -> Prop) (Q : source A -> Prop).
Hypothesis HDataset : forall src, Q src -> P (Dataset src).
Hypothesis HConcat : forall ds lengths offsets,
  Forall P ds -> P (ConcatDataset ds lengths offsets).
Hypothesis HMap : forall src fl, Q src -> P (MapDataset src fl).
Hypothesis HCache : forall src fl cache, Q src -> P (CacheDataset src fl cache).
Hypothesis HSingle : forall filepath, P (SingleTextDataset filepath).
Hypothesis HText : forall filepaths, P (TextDataset filepaths).
Hypothesis HRaw : forall xs, Q (Raw xs).
Hypothesis HNode : forall d, P d -> Q (Node d).

Fixpoint dataset_ind' (d : dataset A) : P d :=
  match d with
  | Dataset src => HDataset src (source_ind' src)
  | ConcatDataset ds lengths offsets =>
      HConcat ds lengths offsets
        ((fix go (ds : list (dataset A)) : Forall P ds :=
            match ds with
            | [] => @List.Forall_nil _ P
            | d' :: ds' => @List.Forall_cons _ P d' ds' (dataset_ind' d') (go ds')
            end) ds)
  | MapDataset src fl => HMap src fl (source_ind' src)
  | CacheDataset src fl cache => HCache src fl cache (source_ind' src)
  | SingleTextDataset filepath => HSingle filepath
  | TextDataset filepaths => HText filepaths
  end
with source_ind' (src : source A) : Q src :=
  match src with
  | Raw xs => HRaw xs
  | Node d => HNode d (dataset_ind' d)
  end.

Definition dataset_source_ind :
  (forall d, P d) /\ (forall src, Q src) :=
  conj dataset_ind' source_ind'.

End dataset_induction.

Section Wf.
Context {A : Type}.
Implicit Types (d : dataset A) (src : source A) (fs : filesystem).

(** The reported length is the number of elements iteration yields. *)
Definition exact fs d : Prop :=
  exists xs, iter fs d = Ok xs /\ len fs d = Ok (Z.of_nat (length xs)).

(** Every file of a multi-file source has at least as many lines as the
    length counted from the first file. *)
Definition aligned fs (filepaths : list string) : Prop :=
  forall n, len fs (TextDataset (A:=A) filepaths) = Ok n ->
    Forall (fun p => exists content,
              fs !! p = Some content /\
              n <= Z.of_nat (length (File.text_lines content))) filepaths.

(** Well-formed nodes: a cache is at least as long as the length of its
    source; a concatenation holds the tables its constructor computes, over
    well-formed children that iterate as many elements as they report; a
    multi-file source is aligned. *)
Fixpoint wf fs d : Prop :=
  match d with
  | Dataset src => source_wf fs src
  | MapDataset src _ => source_wf fs src
  | CacheDataset src _ cache =>
      forall n, source_len fs src = Ok n -> n <= Z.of_nat (length cache)
  | ConcatDataset ds _ _ =>
      ConcatDataset_init fs ds = Ok d /\
      (fix children (ds : list (dataset A)) : Prop :=
         match ds with
         | [] => True
         | d' :: ds' => (wf fs d' /\ exact fs d') /\ children ds'
         end) ds
  | SingleTextDataset _ => True
  | TextDataset filepaths => aligned fs filepaths
  end
with source_wf fs src : Prop :=
  match src with
  | Raw _ => True
  | Node d => wf fs d
  end.

(** [len] returns a length. *)
Definition is_Some_len fs d : Prop := exists n, len fs d = Ok n.

(** The files a node refers to. *)
Fixpoint files d : list string :=
  match d with
  | Dataset src => source_files src
  | MapDataset src _ => source_files src
  | CacheDataset src _ _ => source_files src
  | ConcatDataset ds _ _ =>
      (fix children (ds : list (dataset A)) : list string :=
         match ds with
         | [] => []
         | d' :: ds' => files d' ++ children ds'
         end) ds
  | SingleTextDataset filepath => [filepath]
  | TextDataset filepaths => filepaths
  end
with source_files src : list string :=
  match src with
  | Raw _ => []
  | Node d => files d
  end.

(** The function list a node hands down to a [MapDataset] or a
    [CacheDataset] built on it. *)
Definition inherited_funcs d : list (elem A -> elem A) :=
  match as_MapDataset (Node d) with
  | Some fl => fl
  | None => []
  end.

(** For a cache node: the snapshot, indexed at [i], is the inherited
    function list applied to what the source holds at [i]. *)
Definition snapshot_agrees fs d (i : Z) : Prop :=
  match d with
  | CacheDataset src fl cache =>
      Py.list_getitem cache i
      = (let* x := source_getitem fs src i in Ok (apply_map_funcs fl x))
  | _ => True
  end.

(** Every valid index is answered with the element iteration yields at
    that position. *)
Definition indexable fs d : Prop :=
  forall n i, len fs d = Ok n -> 0 <= i < n ->
    exists xs x, iter fs d = Ok xs /\ xs !! Z.to_nat i = Some x /\
      get_example fs d i = Ok x.

Definition source_indexable fs src : Prop :=
  forall n i, source_len fs src = Ok n -> 0 <= i < n ->
    exists xs x, source_iter fs src = Ok xs /\ xs !! Z.to_nat i = Some x /\
      source_getitem fs src i = Ok x.

(** Two file systems on which a node reads the same. *)
Definition same_reads fs fs' d : Prop :=
  len fs d = len fs' d /\ iter fs d = iter fs' d /\
  forall i, get_example fs d i = get_example fs' d i.

Definition source_same_reads fs fs' src : Prop :=
  source_len fs src = source_len fs' src /\
  source_iter fs src = source_iter fs' src /\
  forall i, source_getitem fs src i = source_getitem fs' src i.

End Wf.

(** * Example data *)

Module Examples.

Local Open Scope string_scope.

Definition nl : string := String File.LF EmptyString.
Definition cr : string := String File.CR EmptyString.

(** Three lines in [abc.txt], two in [xy.txt], [mac.txt] with a line ended
    by a lone CR, and an empty file. *)
Definition example_fs : filesystem :=
  <["abc.txt" := "a" ++ nl ++ "b" ++ nl ++ "c" ++ nl]>
    (<["xy.txt" := "x" ++ nl ++ "y" ++ nl]>
       (<["mac.txt" := "p" ++ cr ++ "q" ++ nl]>
          (<["empty.txt" := EmptyString]> ∅))).

Definition numbers : dataset Z := Dataset_init (Raw [Atom 1; Atom 2; Atom 3]).

Definition abc : dataset Z := SingleTextDataset "abc.txt".
Definition xy : dataset Z := SingleTextDataset "xy.txt".
Definition mac : dataset Z := SingleTextDataset "mac.txt".
Definition empty : dataset Z := SingleTextDataset "empty.txt".

(** A multi-file source whose first file is longer than its second. *)
Definition misaligned : dataset Z := TextDataset ["abc.txt"; "xy.txt"].

(** What [save] returns for the misaligned source. *)
Definition misaligned_cache : dataset Z :=
  CacheDataset (Node misaligned) [] [Tuple ["a"; "x"]; Tuple ["b"; "y"]].

Definition double (x : elem Z) : elem Z :=
  match x with Atom n => Atom (n * 2) | _ => x end.

Definition increment (x : elem Z) : elem Z :=
  match x with Atom n => Atom (n + 1) | _ => x end.

(** A concrete serializer standing for [pickle]: a count, then one record
    per element, strings prefixed by their length. *)
Module Codec.

Definition show_nat (n : nat) : string := NilEmpty.string_of_uint (Nat.to_uint n).

Definition read_nat (s : string) : option nat :=
  match NilEmpty.uint_of_string s with
  | Some u => Some (Nat.of_uint u)
  | None => None
  end.

Definition show_Z (z : Z) : string := NilZero.string_of_int (Z.to_int z).

Definition read_Z (s : string) : option Z :=
  match NilZero.int_of_string s with
  | Some i => Some (Z.of_int i)
  | None => None
  end.

(** The text before the first occurrence of [c], and the text after it. *)
Fixpoint split_at (c : ascii) (s : string) : option (string * string) :=
  match s with
  | EmptyString => None
  | String c' rest =>
      if Ascii.eqb c c' then Some (EmptyString, rest)
      else match split_at c rest with
           | Some (before, after) => Some (String c' before, after)
           | None => None
           end
  end.

Definition enc_str (s : string) : string :=
  show_nat (String.length s) ++ ":" ++ s.

Definition enc_elem (x : elem Z) : string :=
  match x with
  | Atom z => "i" ++ show_Z z ++ ";"
  | Str s => "s" ++ enc_str s
  | Tuple ss => "t" ++ show_nat (length ss) ++ ":" ++ String.concat EmptyString (enc_str <$> ss)
  end.

Definition dec_str (s : string) : option (string * string) :=
  match split_at ":" s with
  | Some (len, rest) =>
      match read_nat len with
      | Some n =>
          if (n <=? String.length rest)%nat then
            Some (String.substring 0 n rest,
                  String.substring n (String.length rest - n) rest)
          else None
      | None => None
      end
  | None => None
  end.

Fixpoint dec_strs (count : nat) (s : string) : option (list string * string) :=
  match count with
  | O => Some ([], s)
  | S count' =>
      match dec_str s with
      | Some (x, rest) =>
          match dec_strs count' rest with
          | Some (xs, rest') => Some (x :: xs, rest')
          | None => None
          end
      | None => None
      end
  end.

Definition dec_elem (s : string) : option (elem Z * string) :=
  match s with
  | String tag rest =>
      if Ascii.eqb tag "i" then
        match split_at ";" rest with
        | Some (num, rest') =>
            match read_Z num with
            | Some z => Some (Atom z, rest')
            | None => None
            end
        | None => None
        end
      else if Ascii.eqb tag "s" then
        match dec_str rest with
        | Some (x, rest') => Some (Str x, rest')
        | None => None
        end
      else if Ascii.eqb tag "t" then
        match split_at ":" rest with
        | Some (count, rest') =>
            match read_nat count with
            | Some n =>
                match dec_strs n rest' with
                | Some (xs, rest'') => Some (Tuple xs, rest'')
                | None => None
                end
            | None => None
            end
        | None => None
        end
      else None
  | EmptyString => None
  end.

Fixpoint dec_elems (count : nat) (s : string) : option (list (elem Z) * string) :=
  match count with
  | O => Some ([], s)
  | S count' =>
      match dec_elem s with
      | Some (x, rest) =>
          match dec_elems count' rest with
          | Some (xs, rest') => Some (x :: xs, rest')
          | None => None
          end
      | None => None
      end
  end.

Definition dumps (xs : list (elem Z)) : result string :=
  Ok (show_nat (length xs) ++ ":" ++ String.concat EmptyString (enc_elem <$> xs)).

Definition loads (blob : string) : result (list (elem Z)) :=
  match split_at ":" blob with
  | Some (count, rest) =>
      match read_nat count with
      | Some n =>
          match dec_elems n rest with
          | Some (xs, EmptyString) => Ok xs
          | _ => Raise PickleError
          end
      | None => Raise PickleError
      end
  | None => Raise PickleError
  end.

End Codec.

End Examples.

(** * Iteration as a generator *)

Section Generators.
Context {A : Type}.

(** [d.__iter__()] run to its end: the elements yielded, and the exception
    that ended the generator when one did.  The body of a generator starts
    at the first [next], so the files of a text dataset are opened then. *)
Fixpoint generate (fs : filesystem) (d : dataset A)
  : list (elem A) * option exn :=
  match d with
  | Dataset src => source_generate fs src
  | ConcatDataset datasets _ _ =>
      (fix chain (ds : list (dataset A)) : list (elem A) * option exn :=
         match ds with
         | [] => ([], None)
         | d' :: ds' =>
             match generate fs d' with
             | (xs, Some e) => (xs, Some e)
             | (xs, None) => let '(ys, r) := chain ds' in (xs ++ ys, r)
             end
         end) datasets
  | MapDataset src fl =>
      let '(xs, r) := source_generate fs src in (apply_map_funcs fl <$> xs, r)
  | CacheDataset _ _ cache => (cache, None)
  | SingleTextDataset filepath =>
      match File.open fs filepath with
      | Ok content =>
          ((fun l => Str (strip_line l)) <$> File.text_lines content, None)
      | Raise e => ([], Some e)
      end
  | TextDataset filepaths =>
      match mapM (File.open fs) filepaths with
      | Ok fps =>
          ((fun lines => Tuple (strip_line <$> lines))
             <$> Py.zip_all (File.text_lines <$> fps), None)
      | Raise e => ([], Some e)
      end
  end
with source_generate (fs : filesystem) (src : source A)
  : list (elem A) * option exn :=
  match src with
  | Raw xs => (xs, None)
  | Node d => generate fs d
  end.

(** [take(n)], that is [list(islice(self, n))]: [islice] pulls at most [n]
    elements and never looks past them; it has no [__len__], so [list] asks
    nothing of the dataset. *)
Definition take_ (fs : filesystem) (d : dataset A) (n : nat)
  : result (list (elem A)) :=
  let '(xs, r) := generate fs d in
  if (n <=? length xs)%nat then Ok (take n xs)
  else match r with
       | Some e => Raise e
       | None => Ok xs
       end.

(** What [next] does on an iterator. *)
Inductive next_outcome : Type :=
  | Next (x : elem A)
  | StopIteration
  | Raised (e : exn).

(** [first()], that is [next(iter(self))]. *)
Definition first (fs : filesystem) (d : dataset A) : next_outcome :=
  match generate fs d with
  | (x :: _, _) => Next x
  | ([], None) => StopIteration
  | ([], Some e) => Raised e
  end.

(** [isinstance(d, MapDataset)]. *)
Definition is_MapDataset (d : dataset A) : bool :=
  match as_MapDataset (Node d) with
  | Some _ => true
  | None => false
  end.

(** [isinstance(d, CacheDataset)]. *)
Definition is_CacheDataset (d : dataset A) : bool :=
  match d with
  | CacheDataset _ _ _ => true
  | _ => false
  end.

End Generators.

Arguments next_outcome A : clear implicits.

Module MoreExamples.

Local Open Scope string_scope.


(** A multi-file source whose second file is absent. *)
Definition half_missing : dataset Z := TextDataset ["abc.txt"; "missing.txt"].

Definition negate (x : elem Z) : elem Z :=
  match x with Atom n => Atom (- n) | _ => x end.

End MoreExamples.

(** * Properties *)

(** ** The Python built-ins *)

Module PyFacts.

Section list_getitem.
Context {T : Type}.
Implicit Types (xs : list T) (i : Z).

Lemma list_getitem_nonneg xs i :
  0 <= i ->
  Py.list_getitem xs i =
    match xs !! Z.to_nat i with Some x => Ok x | None => Raise IndexError end.
Proof.
  intros Hi. unfold Py.list_getitem.
  destruct (Z.ltb_spec i 0) as [?|_]; [lia|].
  destruct (Z.ltb_spec i 0) as [?|_]; [lia|]. simpl.
  destruct (Z.leb_spec (Z.of_nat (length xs)) i) as [Hge|Hlt]; [|done].
  rewrite lookup_ge_None_2; [done|lia].
Qed.

Lemma list_getitem_lookup xs i x :
  0 <= i -> xs !! Z.to_nat i = Some x -> Py.list_getitem xs i = Ok x.
Proof. intros Hi Hx. by rewrite list_getitem_nonneg, Hx. Qed.

Lemma list_getitem_negative xs i :
  i < 0 -> Py.list_getitem xs i =
    if i + Z.of_nat (length xs) <? 0 then Raise IndexError
    else Py.list_getitem xs (i + Z.of_nat (length xs)).
Proof.
  intros Hi. unfold Py.list_getitem at 1.
  destruct (Z.ltb_spec i 0) as [_|?]; [|lia].
  destruct (Z.ltb_spec (i + Z.of_nat (length xs)) 0) as [Hlt|Hge]; [done|].
  simpl. destruct (Z.leb_spec (Z.of_nat (length xs)) (i + Z.of_nat (length xs)));
    [lia|].
  rewrite list_getitem_nonneg by lia. done.
Qed.

Lemma list_getitem_out_of_range xs i :
  i < - Z.of_nat (length xs) \/ Z.of_nat (length xs) <= i ->
  Py.list_getitem xs i = Raise IndexError.
Proof.
  intros [Hlo|Hhi].
  - rewrite list_getitem_negative by lia.
    destruct (Z.ltb_spec (i + Z.of_nat (length xs)) 0); [done|lia].
  - rewrite list_getitem_nonneg by lia.
    rewrite lookup_ge_None_2; [done|lia].
Qed.

Lemma list_getitem_Ok xs i x :
  Py.list_getitem xs i = Ok x ->
  - Z.of_nat (length xs) <= i < Z.of_nat (length xs).
Proof.
  intros H.
  destruct (Z_lt_le_dec i (- Z.of_nat (length xs))) as [?|?];
    [rewrite list_getitem_out_of_range in H by lia; done|].
  destruct (Z_lt_le_dec i (Z.of_nat (length xs))) as [?|?]; [lia|].
  rewrite list_getitem_out_of_range in H by lia; done.
Qed.

Lemma list_getitem_last xs x :
  last xs = Some x -> Py.list_getitem xs (-1) = Ok x.
Proof.
  intros Hl. rewrite last_lookup in Hl.
  assert (length xs <> 0%nat) by (destruct xs; [done|simpl; lia]).
  rewrite list_getitem_negative by lia.
  destruct (Z.ltb_spec (-1 + Z.of_nat (length xs)) 0); [lia|].
  apply list_getitem_lookup; [lia|].
  replace (Z.to_nat (-1 + Z.of_nat (length xs))) with (pred (length xs)) by lia.
  done.
Qed.

End list_getitem.

Lemma mapM_Ok {T U : Type} (k : T -> result U) (g : T -> U) (xs : list T) :
  (forall x, x ∈ xs -> k x = Ok (g x)) -> mapM k xs = Ok (g <$> xs).
Proof.
  induction xs as [|x xs IH]; intros H; [done|]. simpl.
  rewrite H by left. simpl. rewrite IH; [done|].
  intros y Hy. apply H. by right.
Qed.

Lemma mapM_ext {T U : Type} (k k' : T -> result U) (xs : list T) :
  (forall x, x ∈ xs -> k x = k' x) -> mapM k xs = mapM k' xs.
Proof.
  induction xs as [|x xs IH]; intros H; [done|]. simpl.
  rewrite H by left. rewrite IH; [done|]. intros y Hy. apply H. by right.
Qed.

Lemma mapM_length {T U : Type} (k : T -> result U) (xs : list T) ys :
  mapM k xs = Ok ys -> length ys = length xs.
Proof.
  revert ys. induction xs as [|x xs IH]; intros ys; simpl.
  - by intros [= <-].
  - destruct (k x); [|done]. simpl. destruct (mapM k xs); [|done]. simpl.
    intros [= <-]. simpl. f_equal. by apply IH.
Qed.

(** The binary search ends within [hi - lo] iterations, on any list. *)
Lemma bisect_loop_terminates fuel a x lo hi :
  (hi <= length a)%nat -> (hi - lo <= fuel)%nat ->
  exists j, Py.bisect_loop fuel a x lo hi = Some j.
Proof.
  revert lo hi. induction fuel as [|fuel IH]; intros lo hi Hhi Hfuel; cbn [Py.bisect_loop].
  - destruct (Nat.ltb_spec lo hi); [lia|eauto].
  - destruct (Nat.ltb_spec lo hi) as [Hlt|]; [|eauto].
    pose proof (Nat.div_mod_eq (lo + hi) 2) as Hd.
    pose proof (Nat.mod_upper_bound (lo + hi) 2) as Hm.
    destruct (lookup_lt_is_Some_2 a ((lo + hi) / 2)) as [v Hv]; [lia|].
    rewrite Hv. destruct (x <? v); apply IH; lia.
Qed.

Lemma bisect_terminates a x : exists j, Py.bisect a x = Some j.
Proof. apply bisect_loop_terminates; lia. Qed.

Lemma bisect_loop_spec fuel a x lo hi :
  sorted a -> (hi <= length a)%nat -> (lo <= hi)%nat -> (hi - lo <= fuel)%nat ->
  (forall k v, (k < lo)%nat -> a !! k = Some v -> v <= x) ->
  (forall k v, (hi <= k)%nat -> a !! k = Some v -> x < v) ->
  exists j, Py.bisect_loop fuel a x lo hi = Some j /\ (j <= length a)%nat /\
    (forall k v, (k < j)%nat -> a !! k = Some v -> v <= x) /\
    (forall k v, (j <= k)%nat -> a !! k = Some v -> x < v).
Proof.
  intros Hs. revert lo hi.
  induction fuel as [|fuel IH]; intros lo hi Hhi Hle Hfuel Hlo Hup; cbn [Py.bisect_loop].
  - destruct (Nat.ltb_spec lo hi); [lia|].
    exists lo. repeat split; [lia|done|].
    intros k v Hk. apply Hup. lia.
  - destruct (Nat.ltb_spec lo hi) as [Hlt|].
    + pose proof (Nat.div_mod_eq (lo + hi) 2) as Hd.
      pose proof (Nat.mod_upper_bound (lo + hi) 2) as Hm.
      destruct (lookup_lt_is_Some_2 a ((lo + hi) / 2)) as [v Hv]; [lia|].
      rewrite Hv. destruct (Z.ltb_spec x v) as [Hxv|Hxv].
      * apply IH; [lia|lia|lia|done|].
        intros k w Hk Hw. pose proof (Hs _ _ _ _ Hk Hv Hw). lia.
      * apply IH; [lia|lia|lia| |done].
        intros k w Hk Hw.
        assert (k <= (lo + hi) / 2)%nat as Hk' by lia.
        pose proof (Hs _ _ _ _ Hk' Hw Hv). lia.
    + exists lo. repeat split; [lia|done|].
      intros k v Hk. apply Hup. lia.
Qed.

(** On a sorted list [bisect] returns the first position holding a value
    strictly greater than [x]. *)
Lemma bisect_spec a x :
  sorted a ->
  exists j, Py.bisect a x = Some j /\ (j <= length a)%nat /\
    (forall k v, (k < j)%nat -> a !! k = Some v -> v <= x) /\
    (forall k v, (j <= k)%nat -> a !! k = Some v -> x < v).
Proof.
  intros Hs. apply bisect_loop_spec; [done|lia|lia|lia|lia|].
  intros k v Hk Hv. apply lookup_lt_Some in Hv. lia.
Qed.

Lemma bisect_unique a x j :
  sorted a -> (j <= length a)%nat ->
  (forall k v, (k < j)%nat -> a !! k = Some v -> v <= x) ->
  (forall k v, (j <= k)%nat -> a !! k = Some v -> x < v) ->
  Py.bisect a x = Some j.
Proof.
  intros Hs Hj Hlo Hup.
  destruct (bisect_spec a x Hs) as (r & -> & Hr & Hrlo & Hrup).
  f_equal. destruct (Nat.lt_trichotomy r j) as [Hlt|[->|Hgt]]; [|done|].
  - destruct (lookup_lt_is_Some_2 a r) as [v Hv]; [lia|].
    pose proof (Hlo _ _ Hlt Hv). pose proof (Hrup r v (Nat.le_refl _) Hv). lia.
  - destruct (lookup_lt_is_Some_2 a j) as [v Hv]; [lia|].
    pose proof (Hrlo _ _ Hgt Hv). pose proof (Hup j v (Nat.le_refl _) Hv). lia.
Qed.

End PyFacts.

(** ** Prefix sums *)

Module AccFacts.

Lemma sum_app xs ys : sum (xs ++ ys) = sum xs + sum ys.
Proof. unfold sum. induction xs as [|x xs IH]; simpl; lia. Qed.

Lemma sum_nonneg xs : Forall (fun x => 0 <= x) xs -> 0 <= sum xs.
Proof. unfold sum. induction 1; simpl; lia. Qed.

Lemma sum_take_le xs (i j : nat) :
  Forall (fun x => 0 <= x) xs -> (i <= j)%nat ->
  sum (take i xs) <= sum (take j xs).
Proof.
  intros Hxs Hij.
  replace j with (i + (j - i))%nat by lia.
  rewrite <- take_take_drop. rewrite sum_app.
  assert (0 <= sum (take (j - i) (drop i xs))); [|lia].
  apply sum_nonneg. apply Forall_take, Forall_drop, Hxs.
Qed.

Lemma accumulate_from_length acc xs :
  length (Py.accumulate_from acc xs) = length xs.
Proof. revert acc. induction xs as [|x xs IH]; intros acc; simpl; [done|]. by rewrite IH. Qed.

Lemma accumulate_from_lookup acc xs (k : nat) :
  (k < length xs)%nat ->
  Py.accumulate_from acc xs !! k = Some (acc + sum (take (S k) xs)).
Proof.
  revert acc k. induction xs as [|x xs IH]; intros acc k Hk; simpl in *; [lia|].
  destruct k as [|k]; simpl.
  - unfold sum. destruct xs; simpl; f_equal; lia.
  - rewrite IH by lia. f_equal. unfold sum. simpl. lia.
Qed.

Lemma accumulate_from_sorted acc xs :
  Forall (fun x => 0 <= x) xs -> sorted (Py.accumulate_from acc xs).
Proof.
  intros Hxs i j v w Hij Hv Hw.
  pose proof (lookup_lt_Some _ _ _ Hv) as Hi.
  pose proof (lookup_lt_Some _ _ _ Hw) as Hj.
  rewrite accumulate_from_length in Hi, Hj.
  rewrite accumulate_from_lookup in Hv, Hw by done.
  injection Hv as <-. injection Hw as <-.
  pose proof (sum_take_le xs (S i) (S j) Hxs). lia.
Qed.

Lemma accumulate_from_last acc xs :
  xs <> [] -> last (Py.accumulate_from acc xs) = Some (acc + sum xs).
Proof.
  intros Hne. rewrite last_lookup, accumulate_from_length.
  assert (length xs <> 0%nat) by (destruct xs; [done|simpl; lia]).
  rewrite accumulate_from_lookup by lia.
  replace (S (pred (length xs))) with (length xs) by lia.
  by rewrite firstn_all.
Qed.

Lemma offsets_lookup acc xs (k : nat) :
  (k < length xs)%nat ->
  (acc :: Py.drop_last (Py.accumulate_from acc xs)) !! k
  = Some (acc + sum (take k xs)).
Proof.
  intros Hk. destruct k as [|k]; simpl.
  - unfold sum. simpl. f_equal. lia.
  - unfold Py.drop_last. rewrite accumulate_from_length.
    rewrite lookup_take_lt by lia.
    apply accumulate_from_lookup. lia.
Qed.

End AccFacts.

(** ** Lines of a file *)

Module FileFacts.

Lemma rstrip_snoc chars s c :
  File.mem c chars = true ->
  File.rstrip chars (s ++ String c EmptyString) = File.rstrip chars s.
Proof.
  intros Hc. induction s as [|a s IH]; simpl.
  - by rewrite Hc.
  - by rewrite IH.
Qed.

Lemma strip_line_LF l :
  strip_line (l ++ String File.LF EmptyString) = strip_line l.
Proof. apply rstrip_snoc. reflexivity. Qed.

Lemma terminate_last_length ls :
  length (File.terminate_last ls) = length ls.
Proof.
  induction ls as [|l ls IH]; [done|]. simpl.
  destruct ls; [done|]. simpl in *. by rewrite IH.
Qed.

Lemma terminate_last_strip ls :
  strip_line <$> File.terminate_last ls = strip_line <$> ls.
Proof.
  induction ls as [|l ls IH]; [done|]. simpl.
  destruct ls as [|l' ls].
  - simpl. destruct (File.endswith_LF l); [done|]. by rewrite strip_line_LF.
  - rewrite !(fmap_cons _ l). f_equal. exact IH.
Qed.

Lemma readlines_length c s :
  length (File.readlines (String c s)) =
    if Ascii.eqb c File.LF then S (length (File.readlines s))
    else Nat.max 1 (length (File.readlines s)).
Proof.
  simpl. destruct (Ascii.eqb c File.LF); [done|].
  destruct (File.readlines s); simpl; lia.
Qed.

(** Counting LF-terminated lines of the raw content never counts more lines
    than text mode yields. *)
Lemma readlines_translate_le s :
  (length (File.readlines s)
   <= length (File.readlines (File.translate_newlines s)))%nat.
Proof.
  remember (String.length s) as n eqn:Hn.
  assert (String.length s <= n)%nat as Hlen by lia. clear Hn.
  revert s Hlen. induction n as [|n IH]; intros s Hlen.
  - destruct s; [simpl; lia|simpl in Hlen; lia].
  - destruct s as [|c s]; [simpl; lia|]. simpl in Hlen.
    cbn [File.translate_newlines].
    destruct (Ascii.eqb_spec c File.CR) as [->|Hc].
    + destruct s as [|c' s].
      * simpl. lia.
      * destruct (Ascii.eqb_spec c' File.LF) as [->|Hc'].
        -- rewrite !readlines_length. simpl in Hlen.
           change (Ascii.eqb File.CR File.LF) with false.
           change (Ascii.eqb File.LF File.LF) with true.
           specialize (IH s ltac:(lia)). cbv iota. lia.
        -- rewrite (readlines_length File.CR), (readlines_length File.LF).
           change (Ascii.eqb File.CR File.LF) with false.
           change (Ascii.eqb File.LF File.LF) with true.
           specialize (IH (String c' s) ltac:(simpl in *; lia)).
           rewrite readlines_length in *. cbv iota. lia.
    + rewrite !readlines_length. specialize (IH s ltac:(lia)).
      destruct (Ascii.eqb c File.LF); lia.
Qed.

End FileFacts.

Import PyFacts AccFacts FileFacts.

Lemma bind_Ok {T U : Type} (m : result T) (k : T -> result U) y :
  bind m k = Ok y -> exists x, m = Ok x /\ k x = Ok y.
Proof. destruct m as [x|e]; simpl; [eauto|done]. Qed.

Section ListFacts.
Context {T : Type}.

Lemma lookup_concat_at (xss : list (list T)) (j : nat) xs (k : nat) :
  xss !! j = Some xs -> (k < length xs)%nat ->
  concat xss !! (length (concat (take j xss)) + k)%nat = xs !! k.
Proof.
  revert j. induction xss as [|ys xss IH]; intros j Hj Hk; [done|].
  destruct j as [|j]; simpl in *.
  - injection Hj as ->. by rewrite lookup_app_l.
  - rewrite length_app, <- Nat.add_assoc.
    rewrite lookup_app_r by lia.
    replace (length ys + (length (concat (take j xss)) + k) - length ys)%nat
      with (length (concat (take j xss)) + k)%nat by lia.
    by apply IH.
Qed.

Lemma sum_lengths (xss : list (list T)) :
  sum ((fun xs => Z.of_nat (length xs)) <$> xss) = Z.of_nat (length (concat xss)).
Proof.
  induction xss as [|xs xss IH]; [done|].
  rewrite fmap_cons. unfold sum in *. cbn [foldr concat].
  rewrite length_app, IH. lia.
Qed.

Lemma zip_all_lookup (ls : list (list T)) (i : nat) (xs : list T) :
  ls <> [] -> Forall2 (fun l x => l !! i = Some x) ls xs ->
  Py.zip_all ls !! i = Some xs.
Proof.
  intros Hne H. induction H as [|l x ls xs Hl H IH]; [done|].
  destruct ls as [|l' ls].
  - apply Forall2_nil_inv_l in H as ->.
    cbn [Py.zip_all]. by rewrite list_lookup_fmap, Hl.
  - change (Py.zip_all (l :: l' :: ls))
      with (zip_with cons l (Py.zip_all (l' :: ls))).
    rewrite lookup_zip_with, Hl, IH by done. done.
Qed.

End ListFacts.

Lemma locate (lens : list Z) (i : Z) :
  Forall (fun x => 0 <= x) lens -> 0 <= i < sum lens ->
  exists j : nat, (j < length lens)%nat /\
    sum (take j lens) <= i < sum (take (S j) lens).
Proof.
  intros Hpos. revert i. induction Hpos as [|x lens Hx Hpos IH]; intros i Hi.
  - unfold sum in Hi. simpl in Hi. lia.
  - destruct (Z_lt_le_dec i x) as [Hlt|Hge].
    + exists 0%nat. unfold sum. simpl. lia.
    + destruct (IH (i - x)) as (j & Hj & Hlo & Hhi).
      { unfold sum in *. simpl in Hi. lia. }
      exists (S j). split; [simpl; lia|].
      change (take (S j) (x :: lens)) with (x :: take j lens).
      change (take (S (S j)) (x :: lens)) with (x :: take (S j) lens).
      unfold sum in *. simpl. simpl in Hhi. lia.
Qed.

(** ** Unfolding the classes *)

Section Structure.
Context {A : Type}.
Implicit Types (d : dataset A) (src : source A) (fs : filesystem).
Implicit Types (ds : list (dataset A)).

Lemma iter_ConcatDataset fs ds lengths offsets :
  iter fs (ConcatDataset ds lengths offsets)
  = let* xss := mapM (iter fs) ds in Ok (concat xss).
Proof.
  simpl. induction ds as [|d ds IH]; [done|].
  rewrite IH. cbn [mapM]. destruct (iter fs d); [|done]. simpl.
  destruct (mapM (iter fs) ds); done.
Qed.

Lemma get_example_ConcatDataset fs ds lengths offsets i :
  get_example fs (ConcatDataset ds lengths offsets) i
  = match Py.bisect lengths i with
    | Some j =>
        match ds !! j with
        | Some d' =>
            let* off := Py.list_getitem offsets (Z.of_nat j) in
            get_example fs d' (i - off)
        | None => Raise IndexError
        end
    | None => Raise ValueError
    end.
Proof.
  cbn [get_example]. destruct (Py.bisect lengths i) as [j|]; [|done].
  generalize (Py.list_getitem offsets (Z.of_nat j)). intros off.
  generalize j as k.
  induction ds as [|d ds IH]; intros k; [done|].
  destruct k as [|k]; [done|]. apply IH.
Qed.

Lemma wf_ConcatDataset fs ds lengths offsets :
  wf fs (ConcatDataset ds lengths offsets) <->
  ConcatDataset_init fs ds = Ok (ConcatDataset ds lengths offsets) /\
  Forall (fun d' => wf fs d' /\ exact fs d') ds.
Proof.
  simpl. apply and_iff_compat_l.
  induction ds as [|d ds IH]; simpl.
  - split; [constructor|done].
  - rewrite Forall_cons. by rewrite IH.
Qed.

Lemma count_lines_Ok fs p n :
  File.count_lines fs p = Ok n ->
  exists content, fs !! p = Some content /\ content <> EmptyString /\
    n = Z.of_nat (length (File.readlines content)).
Proof.
  unfold File.count_lines, File.open. destruct (fs !! p) as [content|]; [|done].
  simpl. destruct content; [done|]. intros [= <-]. eauto.
Qed.

Lemma len_nonneg_both fs :
  (forall d n, len fs d = Ok n -> 0 <= n) /\
  (forall src n, source_len fs src = Ok n -> 0 <= n).
Proof.
  assert (forall p n, File.count_lines fs p = Ok n -> 0 <= n) as Hcount.
  { intros p n (c & _ & _ & ->)%count_lines_Ok. lia. }
  apply dataset_source_ind; try (intros; simpl in *; eauto; fail).
  - intros ds lengths offsets _ n. cbn [len].
    intros (m & _ & Hm)%bind_Ok. unfold Py.len_result in Hm.
    destruct (Z.ltb_spec m 0); [done|]. injection Hm as <-. done.
  - intros ps n. cbn [len]. intros (p & _ & Hp)%bind_Ok. eauto.
  - intros xs n. simpl. intros [= <-]. lia.
Qed.

Lemma len_nonneg fs d n : len fs d = Ok n -> 0 <= n.
Proof. apply len_nonneg_both. Qed.

(** What a successful [ConcatDataset_init] stores. *)
Lemma ConcatDataset_init_Ok fs ds c :
  ConcatDataset_init fs ds = Ok c ->
  exists lens, mapM (len fs) ds = Ok lens /\ ds <> [] /\
    c = ConcatDataset ds (Py.accumulate lens) (0 :: Py.drop_last (Py.accumulate lens)).
Proof.
  unfold ConcatDataset_init.
  intros (lens & Hlens & (n & Hn & [= <-])%bind_Ok)%bind_Ok.
  exists lens. split; [done|]. split; [|done].
  intros ->. simpl in Hlens. injection Hlens as <-. done.
Qed.

Lemma mapM_len_length fs ds lens :
  mapM (len fs) ds = Ok lens -> length lens = length ds.
Proof. apply mapM_length. Qed.

Lemma mapM_lookup {T U : Type} (k : T -> result U) xs ys (j : nat) x :
  mapM k xs = Ok ys -> xs !! j = Some x ->
  exists y, ys !! j = Some y /\ k x = Ok y.
Proof.
  revert ys j. induction xs as [|x' xs IH]; intros ys j; [done|].
  cbn [mapM]. intros (y & Hy & (ys' & Hys & [= <-])%bind_Ok)%bind_Ok.
  destruct j as [|j]; simpl.
  - intros [= ->]. eauto.
  - intros Hx. eauto.
Qed.

Lemma mapM_nonneg fs ds lens :
  mapM (len fs) ds = Ok lens -> Forall (fun x => 0 <= x) lens.
Proof.
  revert lens. induction ds as [|d ds IH]; intros lens; cbn [mapM].
  - intros [= <-]. constructor.
  - intros (y & Hy & (ys' & Hys & [= <-])%bind_Ok)%bind_Ok.
    constructor; [by eapply len_nonneg|by apply IH].
Qed.

(** With children that iterate as many elements as they report, the drained
    children line up with the table of lengths. *)
Lemma mapM_iter_exact fs ds lens :
  mapM (len fs) ds = Ok lens -> Forall (exact fs) ds ->
  exists xss, mapM (iter fs) ds = Ok xss /\
    lens = (fun xs => Z.of_nat (length xs)) <$> xss.
Proof.
  revert lens. induction ds as [|d ds IH]; intros lens; cbn [mapM].
  - intros [= <-] _. by exists [].
  - intros (y & Hy & (ys' & Hys & [= <-])%bind_Ok)%bind_Ok Hex.
    apply Forall_cons in Hex as [(xs & Hxs & Hlen) Hex].
    destruct (IH _ Hys Hex) as (xss & Hxss & ->).
    exists (xs :: xss). rewrite Hxs, Hxss. simpl. split; [done|].
    rewrite Hlen in Hy. by injection Hy as <-.
Qed.

End Structure.


(** ** Index resolution *)

Section Indexing.
Context {A : Type}.
Implicit Types (d : dataset A) (src : source A) (fs : filesystem).
Implicit Types (ds : list (dataset A)).

Lemma sum_take_S lens (j : nat) x :
  lens !! j = Some x -> sum (take (S j) lens) = sum (take j lens) + x.
Proof.
  intros Hx. erewrite take_S_r by done. rewrite sum_app.
  unfold sum. simpl. lia.
Qed.

(** The child that owns a global index, as [bisect] finds it. *)
Lemma bisect_accumulate lens (j : nat) i :
  Forall (fun x => 0 <= x) lens -> (j < length lens)%nat ->
  j = 0%nat \/ sum (take j lens) <= i ->
  i < sum (take (S j) lens) ->
  Py.bisect (Py.accumulate lens) i = Some j.
Proof.
  intros Hpos Hj Hlo Hhi. unfold Py.accumulate.
  apply bisect_unique.
  - by apply accumulate_from_sorted.
  - rewrite accumulate_from_length. lia.
  - intros k v Hk Hv.
    rewrite accumulate_from_lookup in Hv by lia. injection Hv as <-.
    destruct Hlo as [->|Hlo]; [lia|].
    pose proof (sum_take_le lens (S k) j Hpos). lia.
  - intros k v Hk Hv. pose proof (lookup_lt_Some _ _ _ Hv) as Hk'.
    rewrite accumulate_from_length in Hk'.
    rewrite accumulate_from_lookup in Hv by lia. injection Hv as <-.
    pose proof (sum_take_le lens (S j) (S k) Hpos). lia.
Qed.

Lemma bisect_accumulate_beyond lens i :
  Forall (fun x => 0 <= x) lens -> sum lens <= i ->
  Py.bisect (Py.accumulate lens) i = Some (length lens).
Proof.
  intros Hpos Hi. unfold Py.accumulate. apply bisect_unique.
  - by apply accumulate_from_sorted.
  - by rewrite accumulate_from_length.
  - intros k v Hk Hv.
    rewrite accumulate_from_lookup in Hv by lia. injection Hv as <-.
    pose proof (sum_take_le lens (S k) (length lens) Hpos).
    rewrite firstn_all in *. lia.
  - intros k v Hk Hv. apply lookup_lt_Some in Hv.
    rewrite accumulate_from_length in Hv. lia.
Qed.

(** Index resolution of a constructed concatenation node, for any number of
    children: a global index inside the span of child [j] is delegated to
    that child, shifted by the child's offset. *)
Lemma ConcatDataset_get_example fs fs' ds c lens (j : nat) dj i :
  ConcatDataset_init fs ds = Ok c -> mapM (len fs) ds = Ok lens ->
  ds !! j = Some dj ->
  j = 0%nat \/ sum (take j lens) <= i ->
  i < sum (take (S j) lens) ->
  get_example fs' c i = get_example fs' dj (i - sum (take j lens)).
Proof.
  intros (lens' & Hlens' & Hne & ->)%ConcatDataset_init_Ok Hlens Hdj Hlo Hhi.
  rewrite Hlens in Hlens'. injection Hlens' as <-.
  pose proof (mapM_nonneg _ _ _ Hlens) as Hpos.
  pose proof (mapM_len_length _ _ _ Hlens) as Hlen.
  pose proof (lookup_lt_Some _ _ _ Hdj) as Hj.
  rewrite get_example_ConcatDataset.
  rewrite (bisect_accumulate lens j i) by (done || lia).
  rewrite Hdj. unfold Py.accumulate.
  rewrite (list_getitem_lookup _ _ (0 + sum (take j lens))); [done|lia|].
  rewrite Nat2Z.id. apply offsets_lookup. lia.
Qed.

Lemma ConcatDataset_get_example_beyond fs fs' ds c lens i :
  ConcatDataset_init fs ds = Ok c -> mapM (len fs) ds = Ok lens ->
  sum lens <= i ->
  get_example fs' c i = Raise IndexError.
Proof.
  intros (lens' & Hlens' & Hne & ->)%ConcatDataset_init_Ok Hlens Hi.
  rewrite Hlens in Hlens'. injection Hlens' as <-.
  pose proof (mapM_nonneg _ _ _ Hlens) as Hpos.
  pose proof (mapM_len_length _ _ _ Hlens) as Hlen.
  rewrite get_example_ConcatDataset.
  rewrite bisect_accumulate_beyond by done.
  rewrite lookup_ge_None_2 by lia. done.
Qed.

Lemma ConcatDataset_len fs fs' ds c lens :
  ConcatDataset_init fs ds = Ok c -> mapM (len fs) ds = Ok lens ->
  len fs' c = Ok (sum lens).
Proof.
  intros (lens' & Hlens' & Hne & ->)%ConcatDataset_init_Ok Hlens.
  rewrite Hlens in Hlens'. injection Hlens' as <-.
  pose proof (mapM_nonneg _ _ _ Hlens) as Hpos.
  pose proof (mapM_len_length _ _ _ Hlens) as Hlen.
  cbn [len]. unfold Py.accumulate.
  rewrite (list_getitem_last _ (0 + sum lens)).
  - cbn [bind]. unfold Py.len_result. pose proof (sum_nonneg _ Hpos).
    destruct (Z.ltb_spec (0 + sum lens) 0); [lia|]. done.
  - apply accumulate_from_last. intros ->. destruct ds; [done|simpl in Hlen; lia].
Qed.

Lemma getline_strip fs p content (k : nat) l :
  fs !! p = Some content -> File.text_lines content !! k = Some l ->
  strip_line (File.getline fs p (Z.of_nat k + 1)) = strip_line l.
Proof.
  intros Hp Hl. pose proof (lookup_lt_Some _ _ _ Hl) as Hk.
  unfold File.getline, File.getlines. rewrite Hp.
  rewrite terminate_last_length.
  destruct (Z.leb_spec 1 (Z.of_nat k + 1)); [|lia].
  destruct (Z.leb_spec (Z.of_nat k + 1)
              (Z.of_nat (length (File.text_lines content)))); [|lia].
  simpl. replace (Z.to_nat (Z.of_nat k + 1 - 1)) with k by lia.
  pose proof (terminate_last_strip (File.text_lines content)) as Hs.
  apply (f_equal (fun ls => ls !! k)) in Hs.
  rewrite !list_lookup_fmap, Hl in Hs.
  destruct (File.terminate_last (File.text_lines content) !! k); [|done].
  simpl in Hs. by injection Hs.
Qed.

(** Line [k] of every file of a multi-file source, read in lockstep and
    read by line number. *)
Lemma text_tuple fs ps (k : nat) :
  Forall (fun p => exists content, fs !! p = Some content /\
            (k < length (File.text_lines content))%nat) ps ->
  exists contents ls,
    mapM (File.open fs) ps = Ok contents /\
    Forall2 (fun lines l => lines !! k = Some l)
            (File.text_lines <$> contents) ls /\
    strip_line <$> ls
      = (fun p => strip_line (File.getline fs p (Z.of_nat k + 1))) <$> ps.
Proof.
  induction 1 as [|p ps (content & Hp & Hk) _ (contents & ls & Hopen & Hls & Heq)].
  - exists [], []. repeat split; constructor.
  - destruct (lookup_lt_is_Some_2 _ _ Hk) as [l Hl].
    exists (content :: contents), (l :: ls). split; [|split].
    + cbn [mapM]. unfold File.open at 1. rewrite Hp. simpl. by rewrite Hopen.
    + rewrite fmap_cons. by constructor.
    + rewrite !fmap_cons. f_equal; [|done].
      symmetry. by eapply getline_strip.
Qed.

Lemma indexable_SingleTextDataset fs p :
  indexable (A:=A) fs (SingleTextDataset p).
Proof.
  intros n i Hn Hi. cbn [len] in Hn.
  apply count_lines_Ok in Hn as (content & Hp & _ & ->).
  pose proof (readlines_translate_le content) as Hle.
  destruct (lookup_lt_is_Some_2 (File.text_lines content) (Z.to_nat i))
    as [l Hl]; [unfold File.text_lines; lia|].
  exists ((fun l => Str (strip_line l)) <$> File.text_lines content),
         (Str (strip_line l)).
  split; [|split].
  - cbn [iter]. unfold File.open. by rewrite Hp.
  - by rewrite list_lookup_fmap, Hl.
  - cbn [get_example]. do 2 f_equal.
    replace (i + 1) with (Z.of_nat (Z.to_nat i) + 1) by lia.
    by eapply getline_strip.
Qed.

Lemma indexable_TextDataset fs ps :
  aligned (A:=A) fs ps -> indexable (A:=A) fs (TextDataset ps).
Proof.
  intros Hal n i Hn Hi. specialize (Hal n Hn).
  cbn [len] in Hn. apply bind_Ok in Hn as (p0 & Hp0 & Hn).
  assert (ps <> []) as Hne by (intros ->; done).
  destruct (text_tuple fs ps (Z.to_nat i)) as (contents & ls & Hopen & Hls & Heq).
  { eapply Forall_impl; [exact Hal|]. intros p (c & Hc & Hlen). exists c.
    split; [done|lia]. }
  exists ((fun lines => Tuple (strip_line <$> lines))
            <$> Py.zip_all (File.text_lines <$> contents)),
         (Tuple (strip_line <$> ls)).
  split; [|split].
  - cbn [iter]. by rewrite Hopen.
  - rewrite list_lookup_fmap. erewrite zip_all_lookup; [done| |done].
    apply mapM_length in Hopen. destruct contents; [|done].
    destruct ps; [done|simpl in Hopen; lia].
  - cbn [get_example]. do 2 f_equal. rewrite Heq.
    by replace (Z.of_nat (Z.to_nat i) + 1) with (i + 1) by lia.
Qed.

Lemma indexable_ConcatDataset fs ds lengths offsets :
  Forall (fun d => wf fs d -> indexable fs d) ds ->
  wf fs (ConcatDataset ds lengths offsets) ->
  indexable fs (ConcatDataset ds lengths offsets).
Proof.
  intros IH [Hinit Hch]%wf_ConcatDataset n i Hn Hi.
  destruct (ConcatDataset_init_Ok _ _ _ Hinit) as (lens & Hlens & Hne & _).
  rewrite (ConcatDataset_len _ _ _ _ _ Hinit Hlens) in Hn. injection Hn as <-.
  pose proof (mapM_nonneg _ _ _ Hlens) as Hpos.
  pose proof (mapM_len_length _ _ _ Hlens) as Hlen.
  destruct (locate lens i Hpos Hi) as (j & Hj & Hlo & Hhi).
  destruct (lookup_lt_is_Some_2 ds j) as [dj Hdj]; [lia|].
  destruct (mapM_lookup _ _ _ _ _ Hlens Hdj) as (lj & Hlj & Hlendj).
  rewrite (sum_take_S _ _ _ Hlj) in Hhi.
  destruct (mapM_iter_exact fs ds lens Hlens) as (xss & Hxss & Hlens_eq).
  { eapply Forall_impl; [exact Hch|]. by intros ? [_ ?]. }
  destruct (mapM_lookup _ _ _ _ _ Hxss Hdj) as (xsj & Hxsj & Hiterj).
  rewrite Forall_lookup in IH, Hch.
  destruct (IH _ _ Hdj (proj1 (Hch _ _ Hdj)) lj (i - sum (take j lens)))
    as (xs' & x & Hxs' & Hx & Hget); [done|lia|].
  rewrite Hiterj in Hxs'. injection Hxs' as <-.
  exists (concat xss), x. split; [|split].
  - rewrite iter_ConcatDataset, Hxss. done.
  - assert (sum (take j lens) = Z.of_nat (length (concat (take j xss)))) as Hoff.
    { rewrite Hlens_eq, <- fmap_take. apply sum_lengths. }
    replace (Z.to_nat i)
      with (length (concat (take j xss)) + Z.to_nat (i - sum (take j lens)))%nat
      by lia.
    rewrite (lookup_concat_at xss j xsj); [done|done|].
    by apply lookup_lt_Some in Hx.
  - erewrite (ConcatDataset_get_example fs fs ds); [exact Hget|done..| |].
    + right. lia.
    + rewrite (sum_take_S _ _ _ Hlj). lia.
Qed.

Lemma wf_indexable_both fs :
  (forall d, wf fs d -> indexable fs d) /\
  (forall src, source_wf fs src -> source_indexable fs src).
Proof.
  assert (forall src fl, (source_wf fs src -> source_indexable fs src) ->
            wf fs (MapDataset src fl) -> indexable fs (MapDataset src fl)) as HM.
  { intros src fl IH Hwf n i Hn Hi.
    destruct (IH Hwf n i Hn Hi) as (xs & x & Hxs & Hx & Hget).
    exists (apply_map_funcs fl <$> xs), (apply_map_funcs fl x).
    cbn [iter get_example]. rewrite Hxs, Hget, list_lookup_fmap, Hx. done. }
  assert (forall src fl cache,
            wf fs (CacheDataset src fl cache) ->
            indexable fs (CacheDataset src fl cache)) as HC.
  { intros src fl cache Hwf n i Hn Hi. cbn [wf] in Hwf. specialize (Hwf n Hn).
    destruct (lookup_lt_is_Some_2 cache (Z.to_nat i)) as [x Hx]; [lia|].
    exists cache, x. cbn [iter get_example].
    by rewrite (list_getitem_lookup _ _ x) by (done || lia). }
  assert (forall xs : list (elem A), source_indexable fs (Raw xs)) as HR.
  { intros xs n i [= <-] Hi.
    destruct (lookup_lt_is_Some_2 xs (Z.to_nat i)) as [x Hx]; [lia|].
    exists xs, x. cbn [source_iter source_getitem].
    by rewrite (list_getitem_lookup _ _ x) by (done || lia). }
  apply dataset_source_ind; eauto.
  - intros; by apply indexable_ConcatDataset.
  - intros; apply indexable_SingleTextDataset.
  - intros; by apply indexable_TextDataset.
Qed.

End Indexing.

(** ** Indexed access against iteration *)




(** The same happens under a concatenation when a child counts fewer lines
    than it iterates: [mac.txt] holds one LF and two text-mode lines. *)
Lemma concat_after_lone_CR :
  let fs := Examples.example_fs in
  let d := ConcatDataset [Examples.mac; Examples.numbers] [1; 4] [0; 1] in
  ConcatDataset_init fs [Examples.mac; Examples.numbers] = Ok d /\
  len fs d = Ok 4 /\
  get_example fs d 1 = Ok (Atom 1) /\
  iter fs d = Ok [Str "p"; Str "q"; Atom 1; Atom 2; Atom 3].
Proof. repeat split; vm_compute; reflexivity. Qed.

(** ** Nodes whose length is the number of elements they iterate *)

Section Exact.
Context {A : Type}.
Implicit Types (d : dataset A) (src : source A) (fs : filesystem).
Implicit Types (ds : list (dataset A)).

Lemma exact_Dataset_Raw fs (xs : list (elem A)) : exact fs (Dataset (Raw xs)).
Proof. by exists xs. Qed.

Lemma exact_MapDataset_Raw fs (xs : list (elem A)) fl :
  exact fs (MapDataset (Raw xs) fl).
Proof.
  exists (apply_map_funcs fl <$> xs). split; [done|].
  cbn [len source_len]. by rewrite length_fmap.
Qed.

Lemma exact_ConcatDataset fs ds c :
  ConcatDataset_init fs ds = Ok c -> Forall (exact fs) ds -> exact fs c.
Proof.
  intros Hinit Hex.
  destruct (ConcatDataset_init_Ok _ _ _ Hinit) as (lens & Hlens & _ & Hc).
  destruct (mapM_iter_exact fs ds lens Hlens Hex) as (xss & Hxss & Heq).
  exists (concat xss). split.
  - rewrite Hc, iter_ConcatDataset, Hxss. done.
  - rewrite (ConcatDataset_len _ _ _ _ _ Hinit Hlens), Heq, sum_lengths. done.
Qed.

Lemma translate_newlines_no_CR (s : string) :
  File.mem File.CR s = false -> File.translate_newlines s = s.
Proof.
  induction s as [|c s IH]; [done|]. cbn [File.mem File.translate_newlines].
  rewrite Ascii.eqb_sym.
  destruct (Ascii.eqb c File.CR); [done|]. cbn [orb]. intros H. by rewrite IH.
Qed.

(** A non-empty file without CR counts as many lines as it iterates. *)
Lemma exact_SingleTextDataset fs p content :
  fs !! p = Some content -> content <> EmptyString ->
  File.mem File.CR content = false ->
  exact (A:=A) fs (SingleTextDataset p).
Proof.
  intros Hp Hne Hcr. eexists. split.
  - cbn [iter]. unfold File.open. rewrite Hp. reflexivity.
  - cbn [len]. unfold File.count_lines, File.open. rewrite Hp. cbn [bind].
    destruct content; [done|]. rewrite length_fmap. unfold File.text_lines.
    by rewrite translate_newlines_no_CR.
Qed.

(** The cache node [save] builds on a well-formed node is well formed. *)
Lemma wf_CacheDataset_init fs d xs :
  wf fs d -> iter fs d = Ok xs -> wf fs (CacheDataset_init (Node d) xs).
Proof.
  intros Hwf Hxs. unfold CacheDataset_init. cbn [wf init_dataset]. intros n Hn.
  assert (len fs d = Ok n) as Hlen by (by destruct d).
  destruct (Z_le_gt_dec n 0) as [?|Hpos]; [lia|].
  destruct (proj1 (wf_indexable_both fs) d Hwf n (n - 1) Hlen)
    as (xs' & x & Hxs' & Hx & _); [lia|].
  rewrite Hxs in Hxs'. injection Hxs' as <-.
  apply lookup_lt_Some in Hx. lia.
Qed.

End Exact.

(** The scenario of the specification: a single file holding the lines
    [a], [b], [c] has length 3, answers index 1 with [b], and iterates
    exactly [a], [b], [c]. *)
Example single_file_scenario :
  let fs := Examples.example_fs in
  SingleTextDataset_init fs "abc.txt" = Ok Examples.abc /\
  len fs Examples.abc = Ok 3 /\
  get_example fs Examples.abc 1 = Ok (Str "b") /\
  iter fs Examples.abc = Ok [Str "a"; Str "b"; Str "c"].
Proof. repeat split; vm_compute; reflexivity. Qed.

(** ** Composition of maps *)

Section MapChain.
Context {A : Type}.
Implicit Types (d u : dataset A) (src : source A) (fs : filesystem).
Implicit Types (f g : elem A -> elem A) (fl : list (elem A -> elem A)).

Lemma bind_ret {T : Type} (m : result T) : (let* x := m in Ok x) = m.
Proof. by destruct m. Qed.

Lemma apply_map_funcs_app fl fl' x :
  apply_map_funcs (fl ++ fl') x = apply_map_funcs fl' (apply_map_funcs fl x).
Proof. apply fold_left_app. Qed.

Lemma map_unfold u f :
  map_ u f = MapDataset (get_dataset u)
               (inherited_funcs u ++ [f]).
Proof.
  unfold map_, MapDataset_init, inherited_funcs. cbn [init_dataset].
  by destruct (as_MapDataset (Node u)).
Qed.

Lemma inherited_funcs_MapDataset src fl :
  inherited_funcs (MapDataset src fl) = fl.
Proof. reflexivity. Qed.

Lemma map_map_unfold u f g :
  map_ (map_ u f) g
  = MapDataset (get_dataset u)
      (inherited_funcs u ++ [f; g]).
Proof.
  rewrite (map_unfold u f), map_unfold.
  rewrite inherited_funcs_MapDataset. cbn [get_dataset].
  by rewrite <- app_assoc.
Qed.

(** Every node but a cache answers an index with its inherited function
    list applied to what its [_dataset] holds there; a cache does so where
    its snapshot agrees with its source. *)
Lemma get_example_via_source fs u i :
  snapshot_agrees fs u i ->
  get_example fs u i
  = (let* x := source_getitem fs (get_dataset u) i in
     Ok (apply_map_funcs (inherited_funcs u) x)).
Proof.
  destruct u as [src|ds lengths offsets|src fl|src fl cache|p|ps];
    unfold inherited_funcs;
    cbn [snapshot_agrees get_dataset as_MapDataset source_getitem get_example
         apply_map_funcs fold_left];
    intros H; try (symmetry; apply bind_ret); done.
Qed.


Lemma MapDataset_init_lists_copy (σ : gmap positive (list (elem A -> elem A))) (l : positive) fl g :
  σ !! l = Some fl ->
  exists σ' l',
    MapDataset_init_lists σ (Some l) g = Some (σ', l') /\
    l' <> l /\ σ !! l' = None /\
    σ' !! l' = Some (fl ++ [g]) /\
    (forall k, k <> l' -> σ' !! k = σ !! k).
Proof.
  intros Hl. unfold MapDataset_init_lists, deepcopy, append. rewrite Hl.
  pose proof (is_fresh (dom σ)) as Hfresh.
  apply not_elem_of_dom in Hfresh.
  eexists _, _. split; [reflexivity|]. split; [congruence|].
  split; [done|]. split.
  - by rewrite lookup_alter_eq, lookup_insert_eq.
  - intros k Hk. by rewrite lookup_alter_ne, lookup_insert_ne.
Qed.

End MapChain.

(** C2, as amended: for an upstream [u] that is not a cache node, or is a
    cache node whose snapshot at [i] is its inherited function list applied
    to what its source holds at [i], the node [u.map(f).map(g)] answers [i]
    with [g (f (u.get_example i))]; it is the one node over the source of
    [u] with the list of [u] extended by [f] and [g], it answers as the node
    mapped once with the composition does, and the list it holds is a new
    list object: the list of the upstream keeps its content. *)
Theorem map_map_composes {A : Type} (fs : filesystem) (u : dataset A)
    (f g : elem A -> elem A) (i : Z) :
  snapshot_agrees fs u i ->
  get_example fs (map_ (map_ u f) g) i
    = (let* x := get_example fs u i in Ok (g (f x))) /\
  get_example fs (map_ (map_ u f) g) i
    = get_example fs (map_ u (fun x => g (f x))) i /\
  map_ (map_ u f) g
    = MapDataset (get_dataset u) (inherited_funcs u ++ [f; g]) /\
  map_ u f
    = MapDataset (get_dataset u) (inherited_funcs u ++ [f]) /\
  (forall (σ : gmap positive (list (elem A -> elem A))) (l : positive) fl,
     σ !! l = Some fl ->
     exists σ' l',
       MapDataset_init_lists σ (Some l) g = Some (σ', l') /\
       l' <> l /\ σ' !! l = Some fl /\ σ' !! l' = Some (fl ++ [g])).
Proof.
  intros Hagree.
  assert (forall h, get_example fs (MapDataset (get_dataset u)
                      (inherited_funcs u ++ h)) i
                    = (let* x := get_example fs u i in Ok (apply_map_funcs h x)))
    as Hchain.
  { intros h. rewrite (get_example_via_source fs u i Hagree). cbn [get_example].
    destruct (source_getitem fs (get_dataset u) i); [|done]. cbn [bind].
    by rewrite apply_map_funcs_app. }
  split; [|split; [|split; [|split]]].
  - rewrite map_map_unfold. apply Hchain.
  - rewrite map_map_unfold, map_unfold, !Hchain. done.
  - apply map_map_unfold.
  - apply map_unfold.
  - intros σ l fl Hl.
    destruct (MapDataset_init_lists_copy σ l fl g Hl)
      as (σ' & l' & Hinit & Hne & _ & Hnew & Hold).
    exists σ', l'. split; [done|]. split; [done|]. split; [|done].
    rewrite Hold; [done|congruence].
Qed.

Lemma map_map_composes_witness :
  let fs := Examples.example_fs in
  let cache := [Atom 2; Atom 4; Atom 6] in
  let u := CacheDataset_init (Node (map_ Examples.numbers Examples.double)) cache in
  iter fs (map_ Examples.numbers Examples.double) = Ok cache /\
  snapshot_agrees fs u 1 /\
  get_example fs u 1 = Ok (Atom 4) /\
  get_example fs (map_ (map_ u Examples.double) Examples.increment) 1
    = (let* x := get_example fs u 1 in Ok (Examples.increment (Examples.double x))) /\
  get_example fs (map_ (map_ u Examples.double) Examples.increment) 1 = Ok (Atom 9).
Proof.
  intros fs cache u.
  assert (snapshot_agrees fs u 1) as Hagree by reflexivity.
  destruct (map_map_composes fs u Examples.double Examples.increment 1 Hagree)
    as (Hget & _).
  split; [reflexivity|]. split; [exact Hagree|]. split; [reflexivity|].
  split; [exact Hget|reflexivity].
Defined.

(** [save] on the misaligned source returns a cache node of length 3 over
    two tuples.  Index 2 is valid for it and fails on it, while the node
    mapped twice reads the source again and answers. *)
Lemma map_map_composes_counterexample :
  let fs := Examples.example_fs in
  let u := Examples.misaligned_cache in
  let blob := "2:t2:1:a1:xt2:1:b1:y"%string in
  let fs' := <["snapshot.pkl"%string := blob]> fs in
  save Examples.Codec.dumps fs Examples.misaligned "snapshot.pkl" = Ok (fs', u) /\
  len fs' u = Ok 3 /\
  get_example fs' u 2 = Raise IndexError /\
  get_example fs' (map_ (map_ u Examples.double) Examples.increment) 2
    = Ok (Tuple ["c"; EmptyString]%string) /\
  ~ (get_example fs' (map_ (map_ u Examples.double) Examples.increment) 2
     = (let* x := get_example fs' u 2 in
        Ok (Examples.increment (Examples.double x)))).
Proof.
  intros fs u blob fs'.
  assert (get_example fs' (map_ (map_ u Examples.double) Examples.increment) 2
          = Ok (Tuple ["c"; EmptyString]%string)) as Hmapped by (vm_compute; reflexivity).
  assert (get_example fs' u 2 = Raise IndexError) as Hu by (vm_compute; reflexivity).
  assert (list_ fs Examples.misaligned
          = Ok [Tuple ["a"; "x"]%string; Tuple ["b"; "y"]%string]) as Hiter
    by (vm_compute; reflexivity).
  assert (Examples.Codec.dumps [Tuple ["a"; "x"]%string; Tuple ["b"; "y"]%string]
          = Ok blob) as Hdumps by (vm_compute; reflexivity).
  split; [unfold save; rewrite Hiter; cbn [bind]; rewrite Hdumps; reflexivity|].
  split; [vm_compute; reflexivity|].
  split; [exact Hu|]. split; [exact Hmapped|].
  rewrite Hmapped, Hu. discriminate.
Qed.

(** The function list a cache node inherits is used by [map]: mapping the
    cache of a mapped dataset applies the upstream functions again, to the
    raw source. *)
Example map_over_cache_rereads_source :
  let fs := Examples.example_fs in
  let u := CacheDataset_init (Node (map_ Examples.numbers Examples.double))
             [Atom 2; Atom 4; Atom 6] in
  map_ u Examples.increment
  = MapDataset (Raw [Atom 1; Atom 2; Atom 3]) [Examples.double; Examples.increment].
Proof. reflexivity. Qed.

(** The scenario of the specification: 3 doubled then incremented is 7. *)
Example double_then_increment :
  let d := Dataset_init (Raw [Atom 3]) in
  get_example Examples.example_fs
    (map_ (map_ d Examples.double) Examples.increment) 0 = Ok (Atom 7).
Proof. reflexivity. Qed.

(** ** Concatenation *)

(** C3: the node built from [S1] and [S2] has the length [len S1 + len S2];
    the binary search over the table [[l1; l1 + l2]] sends every [i < l1] to
    [S1] at [i] and every [l1 <= i < l1 + l2] to [S2] at [i - l1]. *)
Theorem ConcatDataset_of_two {A : Type} (fs : filesystem) (S1 S2 : dataset A)
    (l1 l2 : Z) :
  len fs S1 = Ok l1 -> len fs S2 = Ok l2 ->
  exists c,
    add fs S1 S2 = Ok c /\
    c = ConcatDataset [S1; S2] [l1; l1 + l2] [0; l1] /\
    (forall fs', len fs' c = Ok (l1 + l2)) /\
    (forall fs' i, i < l1 ->
       Py.bisect [l1; l1 + l2] i = Some 0%nat /\
       get_example fs' c i = get_example fs' S1 i) /\
    (forall fs' i, l1 <= i < l1 + l2 ->
       Py.bisect [l1; l1 + l2] i = Some 1%nat /\
       get_example fs' c i = get_example fs' S2 (i - l1)).
Proof.
  intros H1 H2.
  assert (mapM (len fs) [S1; S2] = Ok [l1; l2]) as Hlens
    by (cbn [mapM]; rewrite H1, H2; reflexivity).
  assert (add fs S1 S2 = Ok (ConcatDataset [S1; S2] [l1; l1 + l2] [0; l1]))
    as Hc by (unfold add, ConcatDataset_init; rewrite Hlens; reflexivity).
  pose proof (len_nonneg _ _ _ H1) as Hl1.
  pose proof (len_nonneg _ _ _ H2) as Hl2.
  assert (Forall (fun x => 0 <= x) [l1; l2]) as Hpos by (repeat constructor; done).
  assert (sum (take 1 [l1; l2]) = l1) as Hs1 by (unfold sum; simpl; lia).
  assert (sum (take 2 [l1; l2]) = l1 + l2) as Hs2 by (unfold sum; simpl; lia).
  eexists. split; [exact Hc|]. split; [reflexivity|]. split; [|split].
  - intros fs'. rewrite (ConcatDataset_len fs fs' _ _ _ Hc Hlens).
    unfold sum. simpl. f_equal. lia.
  - intros fs' i Hi. split.
    + apply (bisect_accumulate [l1; l2] 0 i Hpos); [simpl; lia|by left|lia].
    + rewrite (ConcatDataset_get_example fs fs' _ _ _ 0 S1 i Hc Hlens);
        [|done|by left|lia].
      f_equal. unfold sum. simpl. lia.
  - intros fs' i Hi. split.
    + apply (bisect_accumulate [l1; l2] 1 i Hpos); [simpl; lia|right; lia|lia].
    + rewrite (ConcatDataset_get_example fs fs' _ _ _ 1 S2 i Hc Hlens);
        [|done|right; lia|lia].
      f_equal. lia.
Qed.

Lemma ConcatDataset_of_two_witness :
  let fs := Examples.example_fs in
  len fs Examples.numbers = Ok 3 /\ len fs Examples.xy = Ok 2 /\
  exists c,
    add fs Examples.numbers Examples.xy = Ok c /\
    c = ConcatDataset [Examples.numbers; Examples.xy] [3; 3 + 2] [0; 3] /\
    (forall fs', len fs' c = Ok (3 + 2)) /\
    (forall fs' i, i < 3 ->
       Py.bisect [3; 3 + 2] i = Some 0%nat /\
       get_example fs' c i = get_example fs' Examples.numbers i) /\
    (forall fs' i, 3 <= i < 3 + 2 ->
       Py.bisect [3; 3 + 2] i = Some 1%nat /\
       get_example fs' c i = get_example fs' Examples.xy (i - 3)).
Proof.
  intros fs. split; [vm_compute; reflexivity|]. split; [vm_compute; reflexivity|].
  apply (ConcatDataset_of_two fs Examples.numbers Examples.xy 3 2);
    vm_compute; reflexivity.
Defined.

(** Two text sources of lengths 2 and 3: a node of length 5 whose indices
    0 and 1 fall in the first source and 2 to 4 in the second. *)
Example concat_two_text_sources :
  let fs := Examples.example_fs in
  exists c, add fs Examples.xy Examples.abc = Ok c /\
    len fs c = Ok 5 /\
    mapM (get_example fs c) [0; 1; 2; 3; 4]
      = Ok [Str "x"; Str "y"; Str "a"; Str "b"; Str "c"].
Proof. eexists. repeat split; vm_compute; reflexivity. Qed.

(** ** The materialized cache *)

Lemma CacheDataset_reads_snapshot_aux {A : Type} (fs : filesystem)
    (upstream : dataset A) (cache : list (elem A)) (i : Z) :
  iter fs (CacheDataset_init (Node upstream) cache) = Ok cache /\
  get_example fs (CacheDataset_init (Node upstream) cache) i
    = Py.list_getitem cache i.
Proof. unfold CacheDataset_init. by destruct (as_MapDataset (Node upstream)). Qed.

(** C4: a cache node keeps the function list of a [MapDataset] upstream,
    and neither access path looks at it: iteration yields the snapshot as it
    is, and [get_example] is an index into the snapshot. *)
Theorem CacheDataset_reads_snapshot {A : Type} (fs : filesystem)
    (upstream : dataset A) (cache : list (elem A)) (i : Z) :
  let c := CacheDataset_init (Node upstream) cache in
  c = CacheDataset (get_dataset upstream)
        (inherited_funcs upstream) cache /\
  iter fs c = Ok cache /\
  get_example fs c i = Py.list_getitem cache i /\
  (forall x, 0 <= i -> cache !! Z.to_nat i = Some x -> get_example fs c i = Ok x) /\
  (forall src fl fl',
     iter fs (CacheDataset src fl cache) = iter fs (CacheDataset src fl' cache) /\
     get_example fs (CacheDataset src fl cache) i
       = get_example fs (CacheDataset src fl' cache) i).
Proof.
  intros c.
  assert (c = CacheDataset (get_dataset upstream)
                (inherited_funcs upstream) cache) as Hc.
  { subst c. unfold CacheDataset_init, inherited_funcs. by cbn [init_dataset]. }
  split; [exact Hc|]. rewrite Hc. cbn [iter get_example].
  repeat split. intros x Hi Hx. by apply list_getitem_lookup.
Qed.

Lemma CacheDataset_reads_snapshot_witness :
  let fs := Examples.example_fs in
  let upstream := map_ Examples.numbers Examples.double in
  let cache := [Atom 2; Atom 4; Atom 6] in
  let c := CacheDataset_init (Node upstream) cache in
  iter fs upstream = Ok cache /\
  c = CacheDataset (Raw [Atom 1; Atom 2; Atom 3]) [Examples.double] cache /\
  0 <= 1 /\ cache !! Z.to_nat 1 = Some (Atom 4) /\
  get_example fs c 1 = Ok (Atom 4).
Proof.
  intros fs upstream cache c.
  split; [reflexivity|]. split; [reflexivity|]. split; [lia|].
  split; [reflexivity|].
  apply (CacheDataset_reads_snapshot fs upstream cache 1); [lia|reflexivity].
Defined.

(** ** Indices outside the range *)

Lemma list_getitem_in_range {T : Type} (xs : list T) (i : Z) :
  - Z.of_nat (length xs) <= i < Z.of_nat (length xs) ->
  exists x, Py.list_getitem xs i = Ok x /\
    xs !! Z.to_nat (if i <? 0 then i + Z.of_nat (length xs) else i) = Some x.
Proof.
  intros Hi. destruct (Z.ltb_spec i 0) as [Hneg|Hpos].
  - destruct (lookup_lt_is_Some_2 xs (Z.to_nat (i + Z.of_nat (length xs))))
      as [x Hx]; [lia|].
    exists x. split; [|done]. rewrite list_getitem_negative by done.
    destruct (Z.ltb_spec (i + Z.of_nat (length xs)) 0); [lia|].
    apply list_getitem_lookup; [lia|done].
  - destruct (lookup_lt_is_Some_2 xs (Z.to_nat i)) as [x Hx]; [lia|].
    exists x. split; [|done]. by apply list_getitem_lookup.
Qed.

Lemma getline_out_of_range (fs : filesystem) (p : string) (lineno : Z) :
  lineno < 1 \/ Z.of_nat (length (File.getlines fs p)) < lineno ->
  File.getline fs p lineno = EmptyString.
Proof.
  intros H. unfold File.getline.
  destruct (Z.leb_spec 1 lineno); [|done].
  destruct (Z.leb_spec lineno (Z.of_nat (length (File.getlines fs p)))); [lia|done].
Qed.

Lemma getlines_length (fs : filesystem) (p content : string) :
  fs !! p = Some content ->
  length (File.getlines fs p) = length (File.text_lines content).
Proof.
  intros Hp. unfold File.getlines. rewrite Hp. apply terminate_last_length.
Qed.

(** C5, as amended: a node over an in-memory list of [n] elements fails
    with IndexError exactly for [i < -n] and [n <= i], and reads an index in
    [-n, 0) from the end, as Python lists do; a constructed concatenation
    node fails for every index at or beyond its length; a single-file text
    dataset never fails, and returns the empty string for every negative
    index and every index at or beyond the number of lines of the file. *)
Theorem get_example_out_of_range {A : Type} (fs : filesystem) (i : Z) :
  (forall xs : list (elem A),
     let n := Z.of_nat (length xs) in
     (get_example fs (Dataset (Raw xs)) i = Raise IndexError
      <-> i < - n \/ n <= i) /\
     (- n <= i < 0 ->
      exists x, xs !! Z.to_nat (i + n) = Some x /\
        get_example fs (Dataset (Raw xs)) i = Ok x)) /\
  (forall fs0 (ds : list (dataset A)) c n,
     ConcatDataset_init fs0 ds = Ok c -> len fs c = Ok n -> n <= i ->
     get_example fs c i = Raise IndexError) /\
  (forall p : string,
     (exists s, get_example (A:=A) fs (SingleTextDataset p) i = Ok (Str s)) /\
     (i < 0 \/ Z.of_nat (length (File.getlines fs p)) <= i ->
      get_example (A:=A) fs (SingleTextDataset p) i = Ok (Str EmptyString))).
Proof.
  split; [|split].
  - intros xs n. cbn [get_example source_getitem]. split; [split|].
    + intros Hraise.
      destruct (Z_lt_le_dec i (- n)) as [?|?]; [by left|].
      destruct (Z_lt_le_dec i n) as [?|?]; [|by right].
      destruct (list_getitem_in_range xs i) as (x & Hx & _); [lia|].
      rewrite Hx in Hraise. done.
    + apply list_getitem_out_of_range.
    + intros Hi. destruct (list_getitem_in_range xs i) as (x & Hx & Hl); [lia|].
      destruct (Z.ltb_spec i 0); [|lia]. eauto.
  - intros fs0 ds c n Hinit Hn Hi.
    destruct (ConcatDataset_init_Ok _ _ _ Hinit) as (lens & Hlens & _ & _).
    rewrite (ConcatDataset_len _ fs _ _ _ Hinit Hlens) in Hn. injection Hn as <-.
    by eapply ConcatDataset_get_example_beyond.
  - intros p. cbn [get_example]. split; [eauto|].
    intros Hi. rewrite getline_out_of_range by lia. done.
Qed.

Lemma get_example_out_of_range_witness :
  let fs := Examples.example_fs in
  let c := ConcatDataset [Examples.numbers; Examples.xy] [3; 5] [0; 3] in
  (- 3 <= -1 < 0 /\
   exists x, [Atom 1; Atom 2; Atom 3] !! Z.to_nat (-1 + 3) = Some x /\
     get_example fs (Dataset (Raw [Atom 1; Atom 2; Atom 3])) (-1) = Ok x) /\
  (ConcatDataset_init fs [Examples.numbers; Examples.xy] = Ok c /\
   len fs c = Ok 5 /\ 5 <= 5 /\ get_example fs c 5 = Raise IndexError) /\
  ((5 < 0 \/ Z.of_nat (length (File.getlines fs "abc.txt")) <= 5) /\
   get_example (A:=Z) fs (SingleTextDataset "abc.txt") 5 = Ok (Str EmptyString)).
Proof.
  intros fs c.
  destruct (get_example_out_of_range (A:=Z) fs (-1)) as (Hlist & _ & _).
  destruct (get_example_out_of_range (A:=Z) fs 5) as (_ & Hconcat & Htext).
  split; [|split].
  - split; [lia|]. apply (Hlist [Atom 1; Atom 2; Atom 3]). simpl. lia.
  - split; [vm_compute; reflexivity|]. split; [vm_compute; reflexivity|].
    split; [lia|].
    apply (Hconcat fs [Examples.numbers; Examples.xy] c 5);
      [vm_compute; reflexivity|vm_compute; reflexivity|lia].
  - assert (Z.of_nat (length (File.getlines fs "abc.txt")) <= 5) as Hle
      by (vm_compute; discriminate).
    split; [by right|]. apply (proj2 (Htext "abc.txt"%string)). by right.
Defined.

(** [Dataset([1, 2, 3])] answers index -1 with its last element, and the
    three-line [abc.txt] answers index 3 and index -1 with the empty
    string: an index outside [0, length) need not fail. *)
Lemma get_example_out_of_range_counterexample :
  let fs := Examples.example_fs in
  len fs Examples.numbers = Ok 3 /\
  get_example fs Examples.numbers (-1) = Ok (Atom 3) /\
  len fs Examples.abc = Ok 3 /\
  get_example fs Examples.abc 3 = Ok (Str EmptyString) /\
  get_example fs Examples.abc (-1) = Ok (Str EmptyString) /\
  ~ (forall (d : dataset Z) (n i : Z),
       len fs d = Ok n -> i < 0 \/ n <= i ->
       exists e, get_example fs d i = Raise e).
Proof.
  intros fs. repeat split; try (vm_compute; reflexivity).
  intros Hclaim.
  destruct (Hclaim Examples.numbers 3 (-1)) as [e He];
    [vm_compute; reflexivity|left; lia|].
  vm_compute in He. discriminate He.
Qed.

(** ** Snapshot persistence *)

Section Frame.
Context {A : Type}.
Implicit Types (d : dataset A) (src : source A) (fs : filesystem).
Implicit Types (ds : list (dataset A)).

Lemma files_ConcatDataset ds lengths offsets d' :
  d' ∈ ds -> files d' ⊆ files (ConcatDataset ds lengths offsets).
Proof.
  cbn [files]. induction ds as [|d ds IH]; [by intros ?%elem_of_nil|].
  intros [->|Hd]%elem_of_cons p Hp; apply elem_of_app; [by left|].
  right. by apply IH.
Qed.

Lemma count_lines_frame fs fs' p :
  fs !! p = fs' !! p -> File.count_lines fs p = File.count_lines fs' p.
Proof. intros H. unfold File.count_lines, File.open. by rewrite H. Qed.

Lemma getline_frame fs fs' p lineno :
  fs !! p = fs' !! p -> File.getline fs p lineno = File.getline fs' p lineno.
Proof. intros H. unfold File.getline, File.getlines. by rewrite H. Qed.

(** A node reads nothing but its files. *)
Lemma frame_both fs fs' :
  (forall d, (forall p, p ∈ files d -> fs !! p = fs' !! p) -> same_reads fs fs' d) /\
  (forall src, (forall p, p ∈ source_files src -> fs !! p = fs' !! p) ->
     source_same_reads fs fs' src).
Proof.
  pose (P := fun d => (forall p, p ∈ files d -> fs !! p = fs' !! p) ->
                      same_reads fs fs' d).
  pose (Q := fun src => (forall p, p ∈ source_files src -> fs !! p = fs' !! p) ->
                        source_same_reads fs fs' src).
  assert (forall src, Q src -> P (Dataset src)) as HD.
  { intros src IH H. exact (IH H). }
  assert (forall ds lengths offsets, Forall P ds ->
            P (ConcatDataset ds lengths offsets)) as HC.
  { intros ds lengths offsets IH H. rewrite Forall_forall in IH.
    assert (forall d', d' ∈ ds -> same_reads fs fs' d') as Hch.
    { intros d' Hd'. apply IH; [done|]. intros p Hp. apply H.
      by eapply files_ConcatDataset. }
    split; [done|]. split.
    - rewrite !iter_ConcatDataset. erewrite mapM_ext; [done|].
      intros d' Hd'. apply (Hch d' Hd').
    - intros i. rewrite !get_example_ConcatDataset.
      destruct (Py.bisect lengths i) as [j|]; [|done].
      destruct (ds !! j) as [d'|] eqn:Hj; [|done].
      destruct (Py.list_getitem offsets (Z.of_nat j)); [|done]. cbn [bind].
      apply (Hch d'). by eapply list_elem_of_lookup_2. }
  assert (forall src fl, Q src -> P (MapDataset src fl)) as HM.
  { intros src fl IH H. destruct (IH H) as (Hl & Hi & Hg).
    split; [done|]. cbn [iter get_example]. split; [by rewrite Hi|].
    intros i. by rewrite Hg. }
  assert (forall src fl cache, Q src -> P (CacheDataset src fl cache)) as HK.
  { intros src fl cache IH H. destruct (IH H) as (Hl & _ & _). by split. }
  assert (forall p, P (SingleTextDataset p)) as HS.
  { intros p H. assert (fs !! p = fs' !! p) as Hp by (apply H; by left).
    split; [by apply count_lines_frame|]. cbn [iter get_example]. split.
    - unfold File.open. by rewrite Hp.
    - intros i. by rewrite (getline_frame fs fs'). }
  assert (forall ps, P (TextDataset ps)) as HT.
  { intros ps H. cbn [files] in H. split; [|split].
    - cbn [len]. destruct (Py.list_getitem ps 0) as [p|] eqn:Hp; [|done].
      cbn [bind]. apply count_lines_frame, H.
      rewrite list_getitem_nonneg in Hp by lia.
      destruct (ps !! Z.to_nat 0) eqn:Hp'; [|done]. injection Hp as ->.
      by eapply list_elem_of_lookup_2.
    - cbn [iter]. erewrite mapM_ext; [done|]. intros p Hp.
      unfold File.open. by rewrite (H p Hp).
    - intros i. cbn [get_example]. do 2 f_equal.
      apply list_fmap_ext. intros _ p Hp%list_elem_of_lookup_2.
      by rewrite (getline_frame fs fs') by auto. }
  assert (forall xs, Q (Raw xs)) as HR by (intros xs _; by split).
  assert (forall d, P d -> Q (Node d)) as HN by (intros d IH H; exact (IH H)).
  exact (dataset_source_ind P Q HD HC HM HK HS HT HR HN).
Qed.


End Frame.

Lemma list_Ok {A : Type} (fs : filesystem) (d : dataset A) (xs : list (elem A)) :
  list_ fs d = Ok xs <-> is_Some_len fs d /\ iter fs d = Ok xs.
Proof.
  unfold list_, is_Some_len. destruct (len fs d) as [n|e]; cbn [bind].
  - split; [eauto|by intros [_ ?]].
  - split; [done|by intros [[n ?] _]].
Qed.



(** An empty file iterates no line, and its length cannot be taken: [mmap]
    refuses it.  [save] drains with [list(self)] and fails the same way. *)
Example save_empty_file :
  let fs := Examples.example_fs in
  iter fs Examples.empty = Ok [] /\
  len fs Examples.empty = Raise ValueError /\
  save Examples.Codec.dumps fs Examples.empty "snapshot.pkl" = Raise ValueError.
Proof. repeat split; vm_compute; reflexivity. Qed.

(** ** Slicing *)

Lemma range_elem (start stop step i : Z) :
  step <> 0 -> i ∈ Py.range start stop step ->
  (0 < step -> start <= i < stop) /\ (step < 0 -> stop < i <= start).
Proof.
  intros Hstep Hi. unfold Py.range in Hi.
  apply list_elem_of_fmap in Hi as (k & -> & Hk).
  apply elem_of_seq in Hk as [_ Hk]. simpl in Hk.
  unfold Py.range_len in Hk. split; intros Hs.
  - destruct (Z.ltb_spec 0 step); [|lia].
    destruct (Z.ltb_spec start stop); [|simpl in Hk; lia].
    assert (Z.of_nat k <= (stop - start - 1) / step) as Hk' by lia.
    pose proof (Z.mul_div_le (stop - start - 1) step Hs). nia.
  - destruct (Z.ltb_spec 0 step); [lia|].
    destruct (Z.ltb_spec stop start); [|simpl in Hk; lia].
    assert (Z.of_nat k <= (start - stop - 1) / (- step)) as Hk' by lia.
    pose proof (Z.mul_div_le (start - stop - 1) (- step) ltac:(lia)). nia.
Qed.

Lemma slice_indices_bounds (start stop step : option Z) (n a b c : Z) :
  0 <= n -> Py.slice_indices start stop step n = Ok (a, b, c) ->
  c <> 0 /\
  (0 < c -> 0 <= a <= n /\ 0 <= b <= n) /\
  (c < 0 -> -1 <= a <= n - 1 /\ -1 <= b <= n - 1).
Proof.
  intros Hn. unfold Py.slice_indices.
  set (s := match step with Some s => s | None => 1 end).
  destruct (Z.eqb_spec s 0) as [|Hs]; [done|].
  intros [= <- <- <-]. split; [done|].
  destruct (Z.ltb_spec s 0); (split; [intros ?|intros ?]); try lia;
    destruct start as [v|], stop as [w|];
    repeat match goal with
           | |- context [?x <? 0] => destruct (Z.ltb_spec x 0)
           end; lia.
Qed.

Lemma getitem_Slice {A : Type} (fs : filesystem) (d : dataset A)
    (start stop step : option Z) :
  getitem fs d (Slice start stop step)
  = (let* n := len fs d in
     let* r := Py.slice_indices start stop step n in
     let* xs := mapM (fun i => get_example fs d i)
                     (Py.range r.1.1 r.1.2 r.2) in
     Ok (Many xs)).
Proof.
  unfold getitem. destruct (len fs d) as [n|]; [|done]. cbn [bind].
  destruct (Py.slice_indices start stop step n) as [[[a b] c]|]; done.
Qed.

(** The indices a slice visits are valid ones. *)
Lemma slice_range_valid (start stop step : option Z) (n : Z) (r : Z * Z * Z)
    (i : Z) :
  0 <= n -> Py.slice_indices start stop step n = Ok r ->
  i ∈ Py.range r.1.1 r.1.2 r.2 -> 0 <= i < n.
Proof.
  destruct r as [[a b] c]. intros Hn0 Hr Hi. cbn in Hi.
  destruct (slice_indices_bounds _ _ _ _ _ _ _ Hn0 Hr) as (Hc & Hpos & Hneg).
  destruct (range_elem _ _ _ _ Hc Hi) as [Hup Hdown].
  destruct (Z_lt_le_dec 0 c) as [H0|H0].
  - specialize (Hup H0). specialize (Hpos H0). lia.
  - assert (c < 0) as H1 by lia. specialize (Hdown H1). specialize (Hneg H1). lia.
Qed.

(** C7: a slice is the list of [get_example i] for [i] running over
    [range] applied to [slice(start, stop, step).indices(len(S))], with the
    errors of either side; every index so visited lies in [0, len(S)). *)
Theorem slicing_law {A : Type} (fs : filesystem) (d : dataset A)
    (start stop step : option Z) :
  getitem fs d (Slice start stop step)
  = (let* n := len fs d in
     let* r := Py.slice_indices start stop step n in
     let* xs := mapM (fun i => get_example fs d i)
                     (Py.range r.1.1 r.1.2 r.2) in
     Ok (Many xs)) /\
  (forall n r i,
     len fs d = Ok n -> Py.slice_indices start stop step n = Ok r ->
     i ∈ Py.range r.1.1 r.1.2 r.2 -> 0 <= i < n).
Proof.
  split; [apply getitem_Slice|].
  intros n r i Hn Hr Hi.
  exact (slice_range_valid _ _ _ n r i (len_nonneg _ _ _ Hn) Hr Hi).
Qed.

Lemma slicing_law_witness :
  let fs := Examples.example_fs in
  len fs Examples.numbers = Ok 3 /\
  Py.slice_indices (Some (-1)) None (Some (-2)) 3 = Ok (2, -1, -2) /\
  0 ∈ Py.range 2 (-1) (-2) /\
  0 <= 0 < 3 /\
  getitem fs Examples.numbers (Slice (Some (-1)) None (Some (-2)))
    = Ok (Many [Atom 3; Atom 1]).
Proof.
  intros fs.
  assert (0 ∈ Py.range 2 (-1) (-2)) as Hin
    by (vm_compute; apply list_elem_of_further, list_elem_of_here).
  split; [reflexivity|]. split; [reflexivity|]. split; [exact Hin|].
  split.
  - apply (proj2 (slicing_law fs Examples.numbers (Some (-1)) None (Some (-2)))
             3 (2, -1, -2) 0); [reflexivity|reflexivity|exact Hin].
  - rewrite (proj1 (slicing_law fs Examples.numbers (Some (-1)) None (Some (-2)))).
    vm_compute. reflexivity.
Defined.

(** On a node that answers every valid index, a slice never fails. *)
Lemma slice_total {A : Type} (fs : filesystem) (d : dataset A)
    (start stop step : option Z) (n : Z) (r : Z * Z * Z) :
  wf fs d -> len fs d = Ok n -> Py.slice_indices start stop step n = Ok r ->
  exists xs, getitem fs d (Slice start stop step) = Ok (Many xs) /\
    length xs = length (Py.range r.1.1 r.1.2 r.2).
Proof.
  intros Hwf Hn Hr.
  rewrite getitem_Slice, Hn. cbn [bind]. rewrite Hr. cbn [bind].
  assert (forall i, i ∈ Py.range r.1.1 r.1.2 r.2 -> 0 <= i < n) as Hall
    by (intros i; apply (slice_range_valid start stop step);
        [by eapply len_nonneg|done]).
  induction (Py.range r.1.1 r.1.2 r.2) as [|i idxs IH].
  - by exists [].
  - destruct IH as (xs & Hxs & Hlen).
    { intros j Hj. apply Hall. by right. }
    destruct (proj1 (wf_indexable_both fs) d Hwf n i Hn) as (ys & x & _ & _ & Hx).
    { apply Hall. by left. }
    exists (x :: xs). cbn [mapM]. rewrite Hx. cbn [bind].
    destruct (mapM (fun i => get_example fs d i) idxs) as [xs'|]; [|done].
    cbn [bind] in *. injection Hxs as ->. split; [done|]. simpl. by rewrite Hlen.
Qed.

(** ** Several text files in lockstep *)

Section ZipAll.
Context {T : Type}.
Implicit Types (ls : list (list T)).

Lemma zip_all_length ls : length (Py.zip_all ls) = min_length ls.
Proof.
  induction ls as [|l ls IH]; [done|].
  destruct ls as [|l' ls].
  - cbn [Py.zip_all min_length]. by rewrite length_fmap.
  - change (Py.zip_all (l :: l' :: ls))
      with (zip_with cons l (Py.zip_all (l' :: ls))).
    change (min_length (l :: l' :: ls))
      with (Nat.min (length l) (min_length (l' :: ls))).
    by rewrite length_zip_with, IH.
Qed.

Lemma zip_all_lookup_inv ls (k : nat) tup :
  Py.zip_all ls !! k = Some tup ->
  Forall2 (fun l x => l !! k = Some x) ls tup.
Proof.
  revert tup. induction ls as [|l ls IH]; intros tup; [done|].
  destruct ls as [|l' ls].
  - cbn [Py.zip_all]. rewrite list_lookup_fmap.
    destruct (l !! k) as [x|] eqn:Hx; [|done]. intros [= <-].
    by repeat constructor.
  - change (Py.zip_all (l :: l' :: ls))
      with (zip_with cons l (Py.zip_all (l' :: ls))).
    rewrite lookup_zip_with.
    destruct (l !! k) as [x|] eqn:Hx; [|done]. cbn [mbind option_bind].
    destruct (Py.zip_all (l' :: ls) !! k) as [tup'|] eqn:Ht; [|done].
    intros [= <-]. constructor; [done|]. by apply IH.
Qed.

Lemma min_length_le ls l : l ∈ ls -> (min_length ls <= length l)%nat.
Proof.
  induction ls as [|l0 ls IH]; [by intros ?%elem_of_nil|].
  intros Hl. destruct ls as [|l' ls].
  - apply list_elem_of_singleton in Hl as ->. done.
  - change (min_length (l0 :: l' :: ls))
      with (Nat.min (length l0) (min_length (l' :: ls))).
    apply elem_of_cons in Hl as [->|Hl]; [lia|].
    specialize (IH Hl). lia.
Qed.

Lemma min_length_attained ls :
  ls <> [] -> exists l, l ∈ ls /\ length l = min_length ls.
Proof.
  induction ls as [|l0 ls IH]; [done|]. intros _.
  destruct ls as [|l' ls].
  - exists l0. split; [by left|done].
  - change (min_length (l0 :: l' :: ls))
      with (Nat.min (length l0) (min_length (l' :: ls))).
    destruct IH as (l & Hl & Hlen); [done|].
    destruct (Nat.le_ge_cases (length l0) (min_length (l' :: ls))).
    + exists l0. split; [by left|lia].
    + exists l. split; [by right|lia].
Qed.

End ZipAll.

Lemma rstrip_no_occurrence (chars s : string) :
  (forall c, File.mem c s = true -> File.mem c chars = false) ->
  File.rstrip chars s = s.
Proof.
  induction s as [|c s IH]; intros H; [done|]. cbn [File.rstrip].
  rewrite IH.
  - destruct s; [|done]. rewrite (H c); [done|].
    simpl. by rewrite Ascii.eqb_refl.
  - intros c' Hc'. apply H. simpl. rewrite Hc'. by destruct (Ascii.eqb c' c).
Qed.

Lemma mem_LF_cons (c : ascii) (s : string) :
  c <> File.LF -> File.mem File.LF (String c s) = File.mem File.LF s.
Proof.
  intros Hc. cbn [File.mem].
  destruct (Ascii.eqb_spec File.LF c); [congruence|done].
Qed.

Lemma strip_line_no_LF (body : string) :
  File.mem File.LF body = false -> strip_line body = body.
Proof.
  intros Hb. apply rstrip_no_occurrence. intros c Hc.
  unfold File.os_linesep. cbn [File.mem].
  destruct (Ascii.eqb_spec c File.LF) as [->|]; [congruence|done].
Qed.

(** A line read from a file is its stripped form, followed by one LF except
    possibly on the last line, and the stripped form holds no LF. *)
Lemma readlines_stripped (s l : string) :
  l ∈ File.readlines s ->
  File.mem File.LF (strip_line l) = false /\
  (l = (strip_line l ++ String File.LF EmptyString)%string \/ l = strip_line l).
Proof.
  revert l. induction s as [|c s IH]; intros l; [by intros ?%elem_of_nil|].
  cbn [File.readlines]. destruct (Ascii.eqb_spec c File.LF) as [->|Hc].
  - intros [->|Hl]%elem_of_cons; [|by apply IH].
    split; [done|]. by left.
  - destruct (File.readlines s) as [|l0 ls] eqn:Hs.
    + intros ->%list_elem_of_singleton.
      assert (File.mem File.LF (String c EmptyString) = false) as Hm
        by (by rewrite mem_LF_cons).
      rewrite (strip_line_no_LF _ Hm). split; [done|by right].
    + intros [->|Hl]%elem_of_cons; [|apply IH; by right].
      destruct (IH l0 ltac:(by left)) as [Hmem [Hl0|Hl0]].
      * assert (File.mem File.LF (String c (strip_line l0)) = false) as Hm
          by (by rewrite mem_LF_cons).
        assert (strip_line (String c l0) = String c (strip_line l0)) as ->.
        { rewrite Hl0 at 1.
          change (String c (strip_line l0 ++ String File.LF EmptyString))
            with (String c (strip_line l0) ++ String File.LF EmptyString)%string.
          rewrite strip_line_LF. by apply strip_line_no_LF. }
        split; [done|]. left.
        change (String c l0 = String c (strip_line l0 ++ String File.LF EmptyString)%string).
        f_equal. exact Hl0.
      * assert (File.mem File.LF (String c l0) = false) as Hm
          by (rewrite mem_LF_cons by done; by rewrite Hl0).
        rewrite (strip_line_no_LF _ Hm). split; [done|by right].
Qed.

(** C8: iterating a multi-file source whose files all open yields as many
    tuples as the shortest file has lines; tuple [k] holds line [k] of every
    file, in order, each without its terminator; and the length is the line
    count of the first file, whatever the other files are. *)
Theorem TextDataset_lockstep {A : Type} (fs : filesystem)
    (filepaths : list string) (contents : list string) :
  mapM (File.open fs) filepaths = Ok contents ->
  exists tuples,
    iter (A:=A) fs (TextDataset filepaths) = Ok tuples /\
    length tuples = min_length (File.text_lines <$> contents) /\
    (forall (k : nat) t, tuples !! k = Some t ->
       exists lines,
         t = Tuple (strip_line <$> lines) /\
         Forall2 (fun content l => File.text_lines content !! k = Some l)
                 contents lines /\
         Forall (fun l =>
                   File.mem File.LF (strip_line l) = false /\
                   (l = (strip_line l ++ String File.LF EmptyString)%string \/
                    l = strip_line l)) lines) /\
    (forall p rest, filepaths = p :: rest ->
       len (A:=A) fs (TextDataset filepaths) = File.count_lines fs p /\
       forall rest', len (A:=A) fs (TextDataset (p :: rest'))
                     = len (A:=A) fs (TextDataset filepaths)).
Proof.
  intros Hopen. eexists. split; [cbn [iter]; rewrite Hopen; reflexivity|].
  split; [|split].
  - by rewrite length_fmap, zip_all_length.
  - intros k t. rewrite list_lookup_fmap.
    destruct (Py.zip_all (File.text_lines <$> contents) !! k) as [lines|] eqn:Hk;
      [|done].
    intros [= <-]. exists lines. split; [done|].
    apply zip_all_lookup_inv in Hk. split.
    + by apply Forall2_fmap_l in Hk.
    + apply Forall2_fmap_l in Hk. clear Hopen.
      induction Hk as [|c l cs ls Hl _ IH]; constructor; [|done].
      apply (readlines_stripped (File.translate_newlines c)).
      apply list_elem_of_lookup. by exists k.
  - intros p rest ->. split; [reflexivity|]. intros rest'. reflexivity.
Qed.

Lemma TextDataset_lockstep_witness :
  let fs := Examples.example_fs in
  let contents := ["a" ++ Examples.nl ++ "b" ++ Examples.nl ++ "c" ++ Examples.nl;
                   "x" ++ Examples.nl ++ "y" ++ Examples.nl]%string in
  mapM (File.open fs) ["abc.txt"; "xy.txt"]%string = Ok contents /\
  min_length (File.text_lines <$> contents) = 2%nat /\
  len fs Examples.misaligned = Ok 3 /\
  exists tuples,
    iter fs Examples.misaligned = Ok tuples /\
    length tuples = min_length (File.text_lines <$> contents).
Proof.
  intros fs contents.
  assert (mapM (File.open fs) ["abc.txt"; "xy.txt"]%string = Ok contents) as Hopen
    by (vm_compute; reflexivity).
  split; [exact Hopen|]. split; [vm_compute; reflexivity|].
  split; [vm_compute; reflexivity|].
  destruct (TextDataset_lockstep (A:=Z) fs _ _ Hopen) as (tuples & Hiter & Hlen & _).
  exists tuples. split; [exact Hiter|exact Hlen].
Defined.

(** ** The cached length *)

Section LengthCache.
Context {A : Type}.
Implicit Types (o : obj A) (get_length : dataset A -> result Z).

Lemma after_len_filled get_length o n :
  _length o = Some n -> after_len get_length o = o.
Proof. intros H. unfold after_len, __len__. by rewrite H. Qed.

Lemma call_filled get_length o m n :
  _length o = Some n -> call get_length o m = o.
Proof.
  intros H. destruct m as [|[]| | | | | | | | | |]; cbn [call];
    eauto using after_len_filled.
Qed.

Lemma run_filled o calls n : _length o = Some n -> run o calls = o.
Proof.
  intros H. unfold run. induction calls as [|[gl m] calls IH]; [done|].
  cbn [fold_left fst snd]. by rewrite (call_filled gl o m n H).
Qed.

Lemma call_node get_length o m : node (call get_length o m) = node o.
Proof.
  assert (node (after_len get_length o) = node o) as H.
  { unfold after_len, __len__. destruct (_length o); [done|].
    by destruct (get_length (node o)). }
  destruct m as [|[]| | | | | | | | | |]; cbn [call]; done.
Qed.

End LengthCache.

(** On a freshly constructed object [__len__] returns what [len] gives: it
    computes it for every class but [ConcatDataset], whose constructor has
    stored it. *)
Lemma len_of_new {A : Type} (fs : filesystem) (d : dataset A) (n : Z) :
  len fs d = Ok n ->
  __len__ (len fs) (new d) = Ok (n, {| node := d; _length := Some n |}).
Proof.
  intros Hn. unfold __len__, new. cbn [_length node].
  destruct d as [src|ds lengths offsets|src fl|src fl cache|p|ps];
    try (rewrite Hn; reflexivity).
  cbn [len] in Hn. apply bind_Ok in Hn as (m & Hm & Hres).
  unfold Py.len_result in Hres. destruct (Z.ltb_spec m 0); [done|].
  injection Hres as ->.
  destruct (last lengths) as [k|] eqn:Hk.
  - rewrite (list_getitem_last _ _ Hk) in Hm. by injection Hm as ->.
  - apply last_None in Hk as ->. done.
Qed.

(** C9: with an empty cache [__len__] delegates to [get_length] and stores
    the result; with a filled cache it returns the stored value whatever
    [get_length] would compute now, and leaves the object as it is; and once
    the cache is filled no sequence of method calls changes it.  On a
    freshly constructed object the first call returns the length of the
    node and leaves it cached ([ConcatDataset] is constructed with its cache
    already filled, by the same value). *)
Theorem len_write_once {A : Type} (get_length get_length' : dataset A -> result Z)
    (o : obj A) :
  (forall n, _length o = None -> get_length (node o) = Ok n ->
     __len__ get_length o = Ok (n, {| node := node o; _length := Some n |})) /\
  (forall n, _length o = Some n -> __len__ get_length' o = Ok (n, o)) /\
  (forall n o', __len__ get_length o = Ok (n, o') ->
     node o' = node o /\ _length o' = Some n /\
     __len__ get_length' o' = Ok (n, o')) /\
  (forall n calls, _length o = Some n ->
     run o calls = o /\ _length (run o calls) = Some n) /\
  (forall fs d n, len fs d = Ok n ->
     __len__ (len fs) (new d) = Ok (n, {| node := d; _length := Some n |}) /\
     __len__ get_length' {| node := d; _length := Some n |}
       = Ok (n, {| node := d; _length := Some n |})).
Proof.
  split; [|split; [|split; [|split]]].
  - intros n Hnone Hn. unfold __len__. by rewrite Hnone, Hn.
  - intros n Hsome. unfold __len__. by rewrite Hsome.
  - intros n o'. unfold __len__ at 1. destruct (_length o) as [m|] eqn:Hm.
    + intros [= <- <-]. unfold __len__. by rewrite Hm.
    + destruct (get_length (node o)) as [k|]; [|done]. cbn [bind].
      intros [= <- <-]. done.
  - intros n calls Hn. by rewrite (run_filled o calls n Hn).
  - intros fs d n Hn. split; [by apply len_of_new|done].
Qed.

Lemma len_write_once_witness :
  let fs := Examples.example_fs in
  let o := new Examples.abc in
  let o' := {| node := Examples.abc; _length := Some 3 |} in
  _length o = None /\ len fs (node o) = Ok 3 /\
  __len__ (len fs) o = Ok (3, o') /\
  __len__ (len ∅) o' = Ok (3, o') /\
  run o' [(len ∅, m_len); (len ∅, m_getitem (Slice None None None));
          (len fs, m_add Examples.xy); (len ∅, m_all)] = o'.
Proof.
  intros fs o o'.
  assert (len fs (node o) = Ok 3) as Hlen by (vm_compute; reflexivity).
  destruct (len_write_once (len fs) (len ∅) o) as (Hfirst & _ & _ & _ & _).
  destruct (len_write_once (len fs) (len ∅) o') as (_ & Hnext & _ & Hrun & _).
  split; [reflexivity|]. split; [exact Hlen|].
  split; [exact (Hfirst 3 eq_refl Hlen)|].
  split; [exact (Hnext 3 eq_refl)|].
  exact (proj1 (Hrun 3 _ eq_refl)).
Defined.

(** A cache node reports the length of its source, not of its snapshot: the
    constructor stores [len(self._cache)] and [Dataset.__init__] then resets
    the attribute.  For the snapshot drained from the misaligned source the
    two differ. *)
Lemma CacheDataset_len {A : Type} (fs : filesystem) (upstream : dataset A)
    (cache : list (elem A)) :
  _length (new (CacheDataset_init (Node upstream) cache)) = None /\
  len fs (CacheDataset_init (Node upstream) cache) = len fs upstream.
Proof.
  split; [reflexivity|].
  unfold CacheDataset_init. cbn [len init_dataset].
  by destruct upstream.
Qed.

Example CacheDataset_len_misaligned :
  let fs := Examples.example_fs in
  exists cache, iter fs Examples.misaligned = Ok cache /\
    length cache = 2%nat /\
    len fs (CacheDataset_init (Node Examples.misaligned) cache) = Ok 3.
Proof. eexists. repeat split; vm_compute; reflexivity. Qed.

(** ** Wrapping a dataset in a plain [Dataset] *)

(** C10: [Dataset(m)] for a [MapDataset] [m] takes over [m._dataset], so its
    [get_example] returns what the source of [m] holds at [i], while
    [m.get_example] returns the chain applied to it; the two differ wherever
    the chain changes the element. *)
Theorem Dataset_of_MapDataset {A : Type} (fs : filesystem) (src : source A)
    (fl : list (elem A -> elem A)) (i : Z) :
  let m := MapDataset src fl in
  Dataset_init (Node m) = Dataset src /\
  get_example fs (Dataset_init (Node m)) i = source_getitem fs src i /\
  get_example fs m i
    = (let* x := source_getitem fs src i in Ok (apply_map_funcs fl x)) /\
  (forall x, source_getitem fs src i = Ok x -> apply_map_funcs fl x <> x ->
     get_example fs (Dataset_init (Node m)) i = Ok x /\
     get_example fs m i = Ok (apply_map_funcs fl x) /\
     get_example fs (Dataset_init (Node m)) i <> get_example fs m i).
Proof.
  intros m. split; [reflexivity|]. split; [reflexivity|].
  split; [reflexivity|].
  intros x Hx Hne. subst m. cbn [Dataset_init init_dataset get_dataset get_example].
  rewrite Hx. cbn [bind]. split; [reflexivity|]. split; [reflexivity|].
  congruence.
Qed.

Lemma Dataset_of_MapDataset_witness :
  let fs := Examples.example_fs in
  let src := Raw [Atom 1; Atom 2; Atom 3] in
  let m := MapDataset src [Examples.double] in
  m = map_ Examples.numbers Examples.double /\
  source_getitem fs src 1 = Ok (Atom 2) /\
  apply_map_funcs [Examples.double] (Atom 2) <> Atom 2 /\
  get_example fs (Dataset_init (Node m)) 1 = Ok (Atom 2) /\
  get_example fs m 1 = Ok (apply_map_funcs [Examples.double] (Atom 2)) /\
  get_example fs (Dataset_init (Node m)) 1 <> get_example fs m 1.
Proof.
  intros fs src m.
  assert (apply_map_funcs [Examples.double] (Atom 2) <> Atom 2) as Hne
    by (vm_compute; discriminate).
  split; [reflexivity|]. split; [reflexivity|]. split; [exact Hne|].
  apply (Dataset_of_MapDataset fs src [Examples.double] 1); [reflexivity|exact Hne].
Defined.

(** * Further properties *)

(** ** Generators, [take] and [first] *)

Section GeneratorFacts.
Context {A : Type}.
Implicit Types (d : dataset A) (src : source A) (fs : filesystem).
Implicit Types (ds : list (dataset A)).

(** Draining is running the generator to its end. *)
Lemma generate_iter_both fs :
  (forall d, match iter fs d with
             | Ok xs => generate fs d = (xs, None)
             | Raise e => exists xs, generate fs d = (xs, Some e)
             end) /\
  (forall src, match source_iter fs src with
               | Ok xs => source_generate fs src = (xs, None)
               | Raise e => exists xs, source_generate fs src = (xs, Some e)
               end).
Proof.
  apply dataset_source_ind.
  - intros src IH. exact IH.
  - intros ds lengths offsets IH. cbn [iter generate].
    induction IH as [|d ds Hd _ IHds]; [done|].
    destruct (iter fs d) as [xs|e].
    + rewrite Hd. cbn [bind].
      match goal with
      | |- context [bind ?m _] => destruct m as [ys|e]
      end.
      * rewrite IHds. done.
      * destruct IHds as [ys ->]. cbn [bind]. eauto.
    + destruct Hd as [xs ->]. cbn [bind]. eauto.
  - intros src fl IH. cbn [iter generate].
    destruct (source_iter fs src) as [xs|e].
    + by rewrite IH.
    + destruct IH as [xs ->]. cbn [bind]. eauto.
  - intros src fl cache _. done.
  - intros p. cbn [iter generate]. destruct (File.open fs p); cbn [bind]; eauto.
  - intros ps. cbn [iter generate].
    destruct (mapM (File.open fs) ps); cbn [bind]; eauto.
  - intros xs. done.
  - intros d IH. exact IH.
Qed.

Lemma generate_iter_Ok fs d xs :
  iter fs d = Ok xs <-> generate fs d = (xs, None).
Proof.
  pose proof (proj1 (generate_iter_both fs) d) as H.
  destruct (iter fs d) as [ys|e].
  - rewrite H. split; congruence.
  - destruct H as [ys ->]. split; congruence.
Qed.

Lemma generate_iter_Raise fs d e :
  iter fs d = Raise e <-> exists xs, generate fs d = (xs, Some e).
Proof.
  pose proof (proj1 (generate_iter_both fs) d) as H.
  destruct (iter fs d) as [ys|e'].
  - rewrite H. split; [done|]. intros [xs ?]. congruence.
  - destruct H as [ys ->]. split.
    + intros [= ->]. eauto.
    + intros [xs [= _ ->]]. done.
Qed.

Lemma generate_ConcatDataset_cons fs d ds lengths offsets lengths' offsets' :
  generate fs (ConcatDataset (d :: ds) lengths offsets)
  = match generate fs d with
    | (xs, Some e) => (xs, Some e)
    | (xs, None) =>
        let '(ys, r) := generate fs (ConcatDataset ds lengths' offsets') in
        (xs ++ ys, r)
    end.
Proof. reflexivity. Qed.

End GeneratorFacts.

(** X1: when iterating [d] to the end succeeds with [xs], [take n] returns
    the first [n] elements of [xs], all of [xs] when [n] is at least their
    number, and never more than [n] elements. *)
Theorem take_is_prefix {A : Type} (fs : filesystem) (d : dataset A)
    (xs : list (elem A)) (n : nat) :
  iter fs d = Ok xs ->
  take_ fs d n = Ok (take n xs) /\
  (length xs <= n -> take_ fs d n = Ok xs)%nat /\
  length (take n xs) = Nat.min n (length xs).
Proof.
  intros Hxs%generate_iter_Ok. unfold take_. rewrite Hxs.
  split; [|split].
  - destruct (Nat.leb_spec n (length xs)); [done|].
    by rewrite take_ge by lia.
  - intros Hn. destruct (Nat.leb_spec n (length xs)); [|done].
    by rewrite take_ge by lia.
  - apply length_take.
Qed.

Lemma take_is_prefix_witness :
  let fs := Examples.example_fs in
  iter fs Examples.abc = Ok [Str "a"; Str "b"; Str "c"] /\
  take_ fs Examples.abc 2 = Ok [Str "a"; Str "b"] /\
  (3 <= 5)%nat /\ take_ fs Examples.abc 5 = Ok [Str "a"; Str "b"; Str "c"].
Proof.
  intros fs.
  assert (iter fs Examples.abc = Ok [Str "a"; Str "b"; Str "c"]) as Hxs
    by (vm_compute; reflexivity).
  destruct (take_is_prefix fs Examples.abc _ 2 Hxs) as (H2 & _ & _).
  destruct (take_is_prefix fs Examples.abc _ 5 Hxs) as (_ & H5 & _).
  split; [exact Hxs|]. split; [exact H2|]. split; [lia|]. apply H5. simpl. lia.
Defined.

(** X2: [take n] on a concatenation reads no further than it must: when the
    first child iterates [xs] and [n] is at most their number, the result is
    the first [n] elements of [xs], whatever the later children would do. *)
Theorem take_stops_in_first_child {A : Type} (fs : filesystem) (d : dataset A)
    (ds : list (dataset A)) (lengths offsets : list Z)
    (xs : list (elem A)) (n : nat) :
  iter fs d = Ok xs -> (n <= length xs)%nat ->
  take_ fs (ConcatDataset (d :: ds) lengths offsets) n = Ok (take n xs).
Proof.
  intros Hxs%generate_iter_Ok Hn. unfold take_.
  rewrite (generate_ConcatDataset_cons fs d ds _ _ lengths offsets), Hxs.
  destruct (generate fs (ConcatDataset ds lengths offsets)) as [ys r].
  rewrite length_app. destruct (Nat.leb_spec n (length xs + length ys)); [|lia].
  by rewrite take_app_le.
Qed.

Lemma take_stops_in_first_child_witness :
  let fs := Examples.example_fs in
  let c := ConcatDataset [Examples.xy; MoreExamples.half_missing] [2; 5] [0; 2] in
  ConcatDataset_init fs [Examples.xy; MoreExamples.half_missing] = Ok c /\
  iter fs Examples.xy = Ok [Str "x"; Str "y"] /\ (2 <= 2)%nat /\
  iter fs c = Raise FileNotFoundError /\
  take_ fs c 2 = Ok [Str "x"; Str "y"].
Proof.
  intros fs c.
  assert (iter fs Examples.xy = Ok [Str "x"; Str "y"]) as Hxs
    by (vm_compute; reflexivity).
  split; [vm_compute; reflexivity|]. split; [exact Hxs|]. split; [lia|].
  split; [vm_compute; reflexivity|].
  apply (take_stops_in_first_child fs Examples.xy _ _ _ _ 2 Hxs). simpl. lia.
Defined.



(** X4: on an empty file a single-file dataset iterates nothing, answers
    every index with the empty string, and cannot tell its length: [mmap]
    refuses the file with ValueError.  So [all] and [save], which drain with
    [list(self)], fail with ValueError, while [take] returns the empty list
    and [first] raises StopIteration. *)
Theorem empty_file_behaviour {A : Type}
    (pickle_dumps : list (elem A) -> result string)
    (fs : filesystem) (p filename : string) (n : nat) (i : Z) :
  fs !! p = Some EmptyString ->
  let d := SingleTextDataset (A:=A) p in
  SingleTextDataset_init fs p = Ok d /\
  iter fs d = Ok [] /\
  len fs d = Raise ValueError /\
  get_example fs d i = Ok (Str EmptyString) /\
  all fs d = Raise ValueError /\
  save pickle_dumps fs d filename = Raise ValueError /\
  take_ fs d n = Ok [] /\
  first fs d = StopIteration.
Proof.
  intros Hp d.
  assert (iter fs d = Ok []) as Hiter
    by (subst d; cbn [iter]; unfold File.open; by rewrite Hp).
  assert (len fs d = Raise ValueError) as Hlen
    by (subst d; cbn [len]; unfold File.count_lines, File.open; by rewrite Hp).
  assert (generate fs d = ([], None)) as Hgen by (by apply generate_iter_Ok).
  split; [|split; [exact Hiter|split; [exact Hlen|split; [|split; [|split; [|split]]]]]].
  - unfold SingleTextDataset_init, File.is_file. rewrite Hp.
    by rewrite bool_decide_eq_true_2 by eauto.
  - subst d. cbn [get_example]. rewrite getline_out_of_range; [done|].
    rewrite (getlines_length _ _ _ Hp). simpl. lia.
  - unfold all, list_. by rewrite Hlen.
  - unfold save, list_. by rewrite Hlen.
  - unfold take_. rewrite Hgen. by destruct n.
  - unfold first. by rewrite Hgen.
Qed.

Lemma empty_file_behaviour_witness :
  let fs := Examples.example_fs in
  fs !! "empty.txt"%string = Some EmptyString /\
  all fs Examples.empty = Raise ValueError /\
  take_ fs Examples.empty 3 = Ok [] /\
  first fs Examples.empty = StopIteration.
Proof.
  intros fs.
  assert (fs !! "empty.txt"%string = Some EmptyString) as Hp
    by (vm_compute; reflexivity).
  destruct (empty_file_behaviour Examples.Codec.dumps fs "empty.txt" "out.pkl"
              3 0 Hp) as (_ & _ & _ & _ & Hall & _ & Htake & Hfirst).
  split; [exact Hp|]. split; [exact Hall|]. split; [exact Htake|exact Hfirst].
Defined.



(** ** Text-backed datasets *)







Lemma mem_rstrip (c : ascii) (chars s : string) :
  File.mem c (File.rstrip chars s) = true -> File.mem c s = true.
Proof.
  induction s as [|a s IH]; [done|]. cbn [File.rstrip File.mem].
  destruct (File.rstrip chars s) as [|b r] eqn:Hr.
  - destruct (File.mem a chars); [done|]. cbn [File.mem].
    rewrite orb_false_r. intros ->. done.
  - cbn [File.mem]. intros [->|H]%orb_true_iff; [done|].
    rewrite IH; [by rewrite orb_true_r|done].
Qed.

Lemma mem_readlines (c : ascii) (s l : string) :
  l ∈ File.readlines s -> File.mem c l = true -> File.mem c s = true.
Proof.
  revert l. induction s as [|a s IH]; intros l; [by intros ?%elem_of_nil|].
  cbn [File.readlines File.mem]. destruct (Ascii.eqb a File.LF).
  - intros [->|Hl]%elem_of_cons.
    + cbn [File.mem]. rewrite orb_false_r. intros ->. done.
    + intros Hc. rewrite (IH l Hl Hc). by rewrite orb_true_r.
  - destruct (File.readlines s) as [|l0 ls].
    + intros ->%list_elem_of_singleton. cbn [File.mem].
      rewrite orb_false_r. intros ->. done.
    + intros [->|Hl]%elem_of_cons.
      * cbn [File.mem]. intros [->|Hc]%orb_true_iff; [done|].
        rewrite (IH l0); [by rewrite orb_true_r|by left|done].
      * intros Hc. rewrite (IH l); [by rewrite orb_true_r|by right|done].
Qed.

Lemma translate_newlines_no_CR_left (s : string) :
  File.mem File.CR (File.translate_newlines s) = false.
Proof.
  remember (String.length s) as n eqn:Hn.
  assert (String.length s <= n)%nat as Hlen by lia. clear Hn.
  revert s Hlen. induction n as [|n IH]; intros s Hlen.
  - destruct s; [done|simpl in Hlen; lia].
  - destruct s as [|c s]; [done|]. simpl in Hlen.
    cbn [File.translate_newlines].
    destruct (Ascii.eqb_spec c File.CR) as [->|Hc].
    + destruct s as [|c' s]; [done|]. simpl in Hlen.
      destruct (Ascii.eqb c' File.LF); cbn [File.mem].
      * change (Ascii.eqb File.CR File.LF) with false. cbn [orb].
        apply IH. lia.
      * change (Ascii.eqb File.CR File.LF) with false. cbn [orb].
        apply IH. simpl. lia.
    + cbn [File.mem]. rewrite IH by lia. rewrite orb_false_r.
      rewrite Ascii.eqb_sym. by apply Ascii.eqb_neq.
Qed.

(** A stripped line of a file read in text mode holds no LF and no CR. *)
Lemma text_line_clean (content l : string) :
  l ∈ File.text_lines content ->
  File.mem File.LF (strip_line l) = false /\
  File.mem File.CR (strip_line l) = false.
Proof.
  intros Hl. split; [by apply (readlines_stripped _ _ Hl)|].
  destruct (File.mem File.CR (strip_line l)) eqn:Hcr; [|done].
  apply mem_rstrip in Hcr. apply (mem_readlines _ _ _ Hl) in Hcr.
  by rewrite translate_newlines_no_CR_left in Hcr.
Qed.

(** X8: every element of a single-file dataset is a string free of line
    terminators, whether it comes from iteration or from [get_example], at
    any index at all. *)
Theorem SingleTextDataset_elements_clean {A : Type} (fs : filesystem)
    (p : string) :
  (forall xs x, iter (A:=A) fs (SingleTextDataset p) = Ok xs -> x ∈ xs ->
     exists s, x = Str s /\
       File.mem File.LF s = false /\ File.mem File.CR s = false) /\
  (forall i, exists s,
     get_example (A:=A) fs (SingleTextDataset p) i = Ok (Str s) /\
     File.mem File.LF s = false /\ File.mem File.CR s = false).
Proof.
  split.
  - intros xs x. cbn [iter]. unfold File.open.
    destruct (fs !! p) as [content|]; [|done]. cbn [bind]. intros [= <-].
    intros (l & -> & Hl)%list_elem_of_fmap. exists (strip_line l).
    split; [done|]. by apply (text_line_clean content).
  - intros i. cbn [get_example]. eexists. split; [reflexivity|].
    unfold File.getline.
    destruct ((1 <=? i + 1) && (i + 1 <=? Z.of_nat (length (File.getlines fs p))));
      [|done].
    destruct (File.getlines fs p !! Z.to_nat (i + 1 - 1)) as [l|] eqn:Hl; [|done].
    unfold File.getlines in Hl. destruct (fs !! p) as [content|]; [|done].
    pose proof (terminate_last_strip (File.text_lines content)) as Hs.
    apply (f_equal (fun ls => ls !! Z.to_nat (i + 1 - 1))) in Hs.
    rewrite !list_lookup_fmap, Hl in Hs. cbn in Hs.
    destruct (File.text_lines content !! Z.to_nat (i + 1 - 1)) as [l'|] eqn:Hl';
      [|done].
    cbn in Hs. injection Hs as ->.
    apply (text_line_clean content). by eapply list_elem_of_lookup_2.
Qed.

Lemma SingleTextDataset_elements_clean_witness :
  let fs := Examples.example_fs in
  iter fs Examples.mac = Ok [Str "p"; Str "q"] /\
  Str (A:=Z) "q" ∈ [Str (A:=Z) "p"; Str "q"] /\
  exists s, Str (A:=Z) "q" = Str s /\
    File.mem File.LF s = false /\ File.mem File.CR s = false.
Proof.
  intros fs.
  assert (iter fs Examples.mac = Ok [Str "p"; Str "q"]) as Hxs
    by (vm_compute; reflexivity).
  assert (Str (A:=Z) "q" ∈ [Str (A:=Z) "p"; Str "q"]) as Hin
    by (apply list_elem_of_further, list_elem_of_here).
  split; [exact Hxs|]. split; [exact Hin|].
  exact (proj1 (SingleTextDataset_elements_clean (A:=Z) fs "mac.txt") _ _ Hxs Hin).
Defined.

(** X9: [get_example] of a multi-file dataset never fails; it returns one
    string per path, in order, each being what the single-file dataset on
    that path returns at the same index. *)
Theorem TextDataset_get_example_components {A : Type} (fs : filesystem)
    (ps : list string) (i : Z) :
  exists ss,
    get_example (A:=A) fs (TextDataset ps) i = Ok (Tuple ss) /\
    length ss = length ps /\
    forall (j : nat) p, ps !! j = Some p ->
      exists s, ss !! j = Some s /\
        get_example (A:=A) fs (SingleTextDataset p) i = Ok (Str s).
Proof.
  eexists. split; [reflexivity|]. split; [by rewrite length_fmap|].
  intros j p Hp. eexists. rewrite list_lookup_fmap, Hp. split; reflexivity.
Qed.

(** ** Concatenation of any number of datasets *)

Section ConcatFacts.
Context {A : Type}.
Implicit Types (d : dataset A) (fs : filesystem) (ds : list (dataset A)).

Lemma mapM_len_Ok fs ds :
  Forall (fun d => exists n, len fs d = Ok n) ds ->
  exists lens, mapM (len fs) ds = Ok lens.
Proof.
  induction 1 as [|d ds [n Hn] _ [lens Hlens]]; [by exists []|].
  exists (n :: lens). cbn [mapM]. by rewrite Hn, Hlens.
Qed.

Lemma mapM_len_Forall fs ds lens :
  mapM (len fs) ds = Ok lens -> Forall (fun d => exists n, len fs d = Ok n) ds.
Proof.
  revert lens. induction ds as [|d ds IH]; intros lens; [constructor|].
  cbn [mapM]. intros (n & Hn & (lens' & Hlens & _)%bind_Ok)%bind_Ok.
  constructor; eauto.
Qed.

Lemma ConcatDataset_init_of_lens fs ds lens :
  ds <> [] -> mapM (len fs) ds = Ok lens ->
  ConcatDataset_init fs ds
  = Ok (ConcatDataset ds (Py.accumulate lens)
          (0 :: Py.drop_last (Py.accumulate lens))).
Proof.
  intros Hne Hlens. unfold ConcatDataset_init. rewrite Hlens. cbn [bind].
  assert (lens <> []) as Hne'.
  { intros ->. apply mapM_length in Hlens. by destruct ds. }
  unfold Py.accumulate.
  by rewrite (list_getitem_last _ _ (accumulate_from_last 0 lens Hne')).
Qed.

End ConcatFacts.

(** X10: the constructor of [ConcatDataset] succeeds exactly when at least one
    dataset is given and every dataset can tell its length; with no dataset
    it fails with IndexError. *)
Theorem ConcatDataset_init_succeeds {A : Type} (fs : filesystem)
    (ds : list (dataset A)) :
  ((exists c, ConcatDataset_init fs ds = Ok c)
   <-> ds <> [] /\ Forall (fun d => exists n, len fs d = Ok n) ds) /\
  ConcatDataset_init (A:=A) fs [] = Raise IndexError.
Proof.
  split; [|reflexivity]. split.
  - intros [c (lens & Hlens & Hne & _)%ConcatDataset_init_Ok].
    split; [done|]. by eapply mapM_len_Forall.
  - intros [Hne Hall]. destruct (mapM_len_Ok fs ds Hall) as [lens Hlens].
    eexists. by apply ConcatDataset_init_of_lens.
Qed.

Lemma ConcatDataset_init_succeeds_witness :
  let fs := Examples.example_fs in
  [Examples.numbers; Examples.xy] <> [] /\
  Forall (fun d => exists n, len fs d = Ok n) [Examples.numbers; Examples.xy] /\
  (exists c, ConcatDataset_init fs [Examples.numbers; Examples.xy] = Ok c) /\
  ~ (exists c, ConcatDataset_init fs [Examples.numbers; Examples.empty] = Ok c).
Proof.
  intros fs.
  assert (Forall (fun d => exists n, len fs d = Ok n)
            [Examples.numbers; Examples.xy]) as Hall
    by (repeat constructor; eexists; vm_compute; reflexivity).
  split; [done|]. split; [exact Hall|]. split.
  - apply (proj1 (ConcatDataset_init_succeeds fs _)). by split.
  - intros [_ Hbad]%(proj1 (ConcatDataset_init_succeeds fs _)).
    apply Forall_cons in Hbad as [_ Hbad].
    apply Forall_cons in Hbad as [[n Hn] _].
    vm_compute in Hn. discriminate Hn.
Defined.

(** X11: the tables a concatenation node is constructed with: one
    cumulative length and one offset per child, the cumulative lengths in
    non-decreasing order, the offset of child [j] being the sum of the
    lengths of the children before it and its cumulative length that sum
    plus its own length. *)
Theorem ConcatDataset_tables {A : Type} (fs : filesystem)
    (ds ds' : list (dataset A)) (lengths offsets : list Z) :
  ConcatDataset_init fs ds = Ok (ConcatDataset ds' lengths offsets) ->
  ds' = ds /\
  length lengths = length ds /\ length offsets = length ds /\
  sorted lengths /\
  exists lens, mapM (len fs) ds = Ok lens /\
    forall (j : nat) l, lens !! j = Some l ->
      0 <= l /\
      offsets !! j = Some (sum (take j lens)) /\
      lengths !! j = Some (sum (take j lens) + l).
Proof.
  intros Hinit.
  destruct (ConcatDataset_init_Ok _ _ _ Hinit) as (lens & Hlens & Hne & [= -> -> ->]).
  pose proof (mapM_nonneg _ _ _ Hlens) as Hpos.
  pose proof (mapM_len_length _ _ _ Hlens) as Hlen.
  assert (lens <> []) as Hne' by (intros ->; by destruct ds).
  unfold Py.accumulate. split; [done|]. split; [|split; [|split]].
  - by rewrite accumulate_from_length.
  - cbn [length]. unfold Py.drop_last. rewrite length_take, accumulate_from_length.
    destruct lens; [done|]. simpl in *. lia.
  - by apply accumulate_from_sorted.
  - exists lens. split; [done|]. intros j l Hl.
    pose proof (lookup_lt_Some _ _ _ Hl) as Hj. split; [|split].
    + rewrite Forall_lookup in Hpos. eauto.
    + by rewrite offsets_lookup.
    + rewrite accumulate_from_lookup by done.
      by rewrite (sum_take_S _ _ _ Hl).
Qed.

Lemma ConcatDataset_tables_witness :
  let fs := Examples.example_fs in
  ConcatDataset_init fs [Examples.numbers; Examples.xy; Examples.abc]
    = Ok (ConcatDataset [Examples.numbers; Examples.xy; Examples.abc]
            [3; 5; 8] [0; 3; 5]) /\
  sorted [3; 5; 8].
Proof.
  intros fs.
  assert (ConcatDataset_init fs [Examples.numbers; Examples.xy; Examples.abc]
          = Ok (ConcatDataset [Examples.numbers; Examples.xy; Examples.abc]
                  [3; 5; 8] [0; 3; 5])) as Hinit by (vm_compute; reflexivity).
  split; [exact Hinit|].
  exact (proj1 (proj2 (proj2 (proj2 (ConcatDataset_tables fs _ _ _ _ Hinit))))).
Defined.

(** X12: index resolution of a constructed concatenation node with any
    number of children: an index inside the span of child [j] is answered by
    child [j] at the index less the lengths before it; a negative index is
    handed unchanged to the first child; an index at or beyond the total
    length fails with IndexError. *)
Theorem ConcatDataset_resolves_index {A : Type} (fs fs' : filesystem)
    (ds : list (dataset A)) (c : dataset A) (lens : list Z) :
  ConcatDataset_init fs ds = Ok c -> mapM (len fs) ds = Ok lens ->
  (forall (j : nat) dj i, ds !! j = Some dj ->
     sum (take j lens) <= i < sum (take (S j) lens) ->
     get_example fs' c i = get_example fs' dj (i - sum (take j lens))) /\
  (forall d0 i, ds !! 0%nat = Some d0 -> i < 0 ->
     get_example fs' c i = get_example fs' d0 i) /\
  (forall i, sum lens <= i -> get_example fs' c i = Raise IndexError).
Proof.
  intros Hinit Hlens. split; [|split].
  - intros j dj i Hdj Hi.
    apply (ConcatDataset_get_example fs fs' ds c lens j dj i); try done.
    + right. lia.
    + lia.
  - intros d0 i Hd0 Hi.
    rewrite (ConcatDataset_get_example fs fs' ds c lens 0 d0 i); try done.
    + f_equal. unfold sum. simpl. lia.
    + by left.
    + pose proof (mapM_nonneg _ _ _ Hlens) as Hpos.
      assert (0 <= sum (take 1 lens)); [|lia].
      apply sum_nonneg. by apply Forall_take.
  - intros i Hi. by eapply ConcatDataset_get_example_beyond.
Qed.

Lemma ConcatDataset_resolves_index_witness :
  let fs := Examples.example_fs in
  let ds := [Examples.numbers; Examples.xy; Examples.abc] in
  let c := ConcatDataset ds [3; 5; 8] [0; 3; 5] in
  ConcatDataset_init fs ds = Ok c /\ mapM (len fs) ds = Ok [3; 2; 3] /\
  ds !! 2%nat = Some Examples.abc /\
  sum (take 2 [3; 2; 3]) <= 6 < sum (take 3 [3; 2; 3]) /\
  get_example fs c 6 = get_example fs Examples.abc (6 - sum (take 2 [3; 2; 3])) /\
  get_example fs c (-1) = get_example fs Examples.numbers (-1) /\
  get_example fs c 8 = Raise IndexError.
Proof.
  intros fs ds c.
  assert (ConcatDataset_init fs ds = Ok c) as Hinit by (vm_compute; reflexivity).
  assert (mapM (len fs) ds = Ok [3; 2; 3]) as Hlens by (vm_compute; reflexivity).
  assert (sum (take 2 [3; 2; 3]) <= 6 < sum (take 3 [3; 2; 3])) as Hspan
    by (vm_compute; split; discriminate || reflexivity).
  destruct (ConcatDataset_resolves_index fs fs ds c _ Hinit Hlens)
    as (Hin & Hneg & Hout).
  split; [exact Hinit|]. split; [exact Hlens|]. split; [reflexivity|].
  split; [exact Hspan|]. split; [exact (Hin 2%nat _ 6 eq_refl Hspan)|].
  split; [apply (Hneg _ (-1) eq_refl); lia|].
  apply Hout. vm_compute. discriminate.
Defined.

(** X13: a constructed concatenation node iterates its children one after
    the other in construction order, and reports the sum of their lengths;
    when every child iterates as many elements as it reports, so does the
    node. *)
Theorem ConcatDataset_iterates_in_order {A : Type} (fs : filesystem)
    (ds : list (dataset A)) (c : dataset A) (lens : list Z) :
  ConcatDataset_init fs ds = Ok c -> mapM (len fs) ds = Ok lens ->
  (forall fs', len fs' c = Ok (sum lens)) /\
  (forall fs', iter fs' c = (let* xss := mapM (iter fs') ds in Ok (concat xss))) /\
  (Forall (exact fs) ds -> exact fs c).
Proof.
  intros Hinit Hlens. split; [|split].
  - intros fs'. by eapply ConcatDataset_len.
  - intros fs'. destruct (ConcatDataset_init_Ok _ _ _ Hinit) as (lens' & _ & _ & ->).
    apply iter_ConcatDataset.
  - intros Hex. by eapply exact_ConcatDataset.
Qed.

Lemma ConcatDataset_iterates_in_order_witness :
  let fs := Examples.example_fs in
  let ds := [Examples.xy; Examples.numbers] in
  let c := ConcatDataset ds [2; 5] [0; 2] in
  ConcatDataset_init fs ds = Ok c /\ mapM (len fs) ds = Ok [2; 3] /\
  len fs c = Ok (sum [2; 3]) /\
  iter fs c = (let* xss := mapM (iter fs) ds in Ok (concat xss)).
Proof.
  intros fs ds c.
  assert (ConcatDataset_init fs ds = Ok c) as Hinit by (vm_compute; reflexivity).
  assert (mapM (len fs) ds = Ok [2; 3]) as Hlens by (vm_compute; reflexivity).
  destruct (ConcatDataset_iterates_in_order fs ds c _ Hinit Hlens)
    as (Hlen & Hiter & _).
  split; [exact Hinit|]. split; [exact Hlens|]. split; [apply Hlen|apply Hiter].
Defined.

(** ** Concatenation is associative *)

Section Assoc.
Context {A : Type}.
Implicit Types (d x y z : dataset A) (fs : filesystem).

Lemma add_Ok fs x y lx ly :
  len fs x = Ok lx -> len fs y = Ok ly ->
  add fs x y = Ok (ConcatDataset [x; y] [lx; lx + ly] [0; lx]) /\
  mapM (len fs) [x; y] = Ok [lx; ly].
Proof.
  intros Hx Hy.
  assert (mapM (len fs) [x; y] = Ok [lx; ly]) as Hlens
    by (cbn [mapM]; by rewrite Hx, Hy).
  split; [|done]. unfold add, ConcatDataset_init. by rewrite Hlens.
Qed.

Lemma add_len fs fs' x y c lx ly :
  len fs x = Ok lx -> len fs y = Ok ly -> add fs x y = Ok c ->
  len fs' c = Ok (lx + ly).
Proof.
  intros Hx Hy Hc. destruct (add_Ok fs x y lx ly Hx Hy) as [_ Hlens].
  rewrite (ConcatDataset_len fs fs' _ _ _ Hc Hlens). f_equal.
  unfold sum. simpl. lia.
Qed.

(** What a node of two children answers, at any index. *)
Lemma add_get_example fs fs' x y c lx ly i :
  len fs x = Ok lx -> len fs y = Ok ly -> add fs x y = Ok c ->
  get_example fs' c i
  = if i <? lx then get_example fs' x i
    else if i <? lx + ly then get_example fs' y (i - lx)
    else Raise IndexError.
Proof.
  intros Hx Hy Hc. destruct (add_Ok fs x y lx ly Hx Hy) as [_ Hlens].
  pose proof (len_nonneg _ _ _ Hx). pose proof (len_nonneg _ _ _ Hy).
  assert (sum (take 1 [lx; ly]) = lx) as Hs1 by (unfold sum; simpl; lia).
  assert (sum (take 2 [lx; ly]) = lx + ly) as Hs2 by (unfold sum; simpl; lia).
  destruct (Z.ltb_spec i lx); [|destruct (Z.ltb_spec i (lx + ly))].
  - rewrite (ConcatDataset_get_example fs fs' _ c _ 0 x i Hc Hlens);
      [|done|by left|lia].
    f_equal. unfold sum. simpl. lia.
  - rewrite (ConcatDataset_get_example fs fs' _ c _ 1 y i Hc Hlens);
      [|done|right; lia|lia].
    f_equal. lia.
  - apply (ConcatDataset_get_example_beyond fs fs' _ c _ i Hc Hlens).
    unfold sum. simpl. lia.
Qed.

Lemma concat3_Ok fs x y z lx ly lz :
  len fs x = Ok lx -> len fs y = Ok ly -> len fs z = Ok lz ->
  concat_ fs x [y; z]
    = Ok (ConcatDataset [x; y; z] [lx; lx + ly; lx + ly + lz] [0; lx; lx + ly]) /\
  mapM (len fs) [x; y; z] = Ok [lx; ly; lz].
Proof.
  intros Hx Hy Hz.
  assert (mapM (len fs) [x; y; z] = Ok [lx; ly; lz]) as Hlens
    by (cbn [mapM]; by rewrite Hx, Hy, Hz).
  split; [|done]. unfold concat_, ConcatDataset_init. by rewrite Hlens.
Qed.

Lemma concat3_get_example fs fs' x y z c lx ly lz i :
  len fs x = Ok lx -> len fs y = Ok ly -> len fs z = Ok lz ->
  concat_ fs x [y; z] = Ok c ->
  get_example fs' c i
  = if i <? lx then get_example fs' x i
    else if i <? lx + ly then get_example fs' y (i - lx)
    else if i <? lx + ly + lz then get_example fs' z (i - lx - ly)
    else Raise IndexError.
Proof.
  intros Hx Hy Hz Hc.
  destruct (concat3_Ok fs x y z lx ly lz Hx Hy Hz) as [_ Hlens].
  pose proof (len_nonneg _ _ _ Hx). pose proof (len_nonneg _ _ _ Hy).
  pose proof (len_nonneg _ _ _ Hz).
  assert (sum (take 1 [lx; ly; lz]) = lx) as Hs1 by (unfold sum; simpl; lia).
  assert (sum (take 2 [lx; ly; lz]) = lx + ly) as Hs2 by (unfold sum; simpl; lia).
  assert (sum (take 3 [lx; ly; lz]) = lx + ly + lz) as Hs3
    by (unfold sum; simpl; lia).
  unfold concat_ in Hc.
  destruct (Z.ltb_spec i lx);
    [|destruct (Z.ltb_spec i (lx + ly));
      [|destruct (Z.ltb_spec i (lx + ly + lz))]].
  - rewrite (ConcatDataset_get_example fs fs' _ c _ 0 x i Hc Hlens);
      [|done|by left|lia].
    f_equal. unfold sum. simpl. lia.
  - rewrite (ConcatDataset_get_example fs fs' _ c _ 1 y i Hc Hlens);
      [|done|right; lia|lia].
    f_equal. lia.
  - rewrite (ConcatDataset_get_example fs fs' _ c _ 2 z i Hc Hlens);
      [|done|right; lia|lia].
    f_equal. lia.
  - apply (ConcatDataset_get_example_beyond fs fs' _ c _ i Hc Hlens).
    unfold sum. simpl. lia.
Qed.

End Assoc.

(** X14: concatenation is associative: [(a + b) + c], [a + (b + c)] and
    [a.concat(b, c)] have the same length, answer every index alike,
    negative and out-of-range ones included, and iterate the same elements
    with the same failures. *)
Theorem concat_associative {A : Type} (fs : filesystem) (a b c : dataset A)
    (la lb lc : Z) :
  len fs a = Ok la -> len fs b = Ok lb -> len fs c = Ok lc ->
  exists ab bc l r flat,
    add fs a b = Ok ab /\ add fs b c = Ok bc /\
    add fs ab c = Ok l /\ add fs a bc = Ok r /\ concat_ fs a [b; c] = Ok flat /\
    (forall fs', len fs' l = Ok (la + lb + lc) /\
                 len fs' r = Ok (la + lb + lc) /\
                 len fs' flat = Ok (la + lb + lc)) /\
    (forall fs' i, get_example fs' l i = get_example fs' flat i /\
                   get_example fs' r i = get_example fs' flat i) /\
    (forall fs', iter fs' l = iter fs' flat /\ iter fs' r = iter fs' flat).
Proof.
  intros Ha Hb Hc.
  pose proof (len_nonneg _ _ _ Ha). pose proof (len_nonneg _ _ _ Hb).
  pose proof (len_nonneg _ _ _ Hc).
  destruct (add_Ok fs a b la lb Ha Hb) as [Hab _].
  destruct (add_Ok fs b c lb lc Hb Hc) as [Hbc _].
  pose proof (add_len fs fs _ _ _ _ _ Ha Hb Hab) as Hlab.
  pose proof (add_len fs fs _ _ _ _ _ Hb Hc Hbc) as Hlbc.
  destruct (add_Ok fs _ c _ lc Hlab Hc) as [Hl _].
  destruct (add_Ok fs a _ la _ Ha Hlbc) as [Hr _].
  destruct (concat3_Ok fs a b c la lb lc Ha Hb Hc) as [Hflat Hlens].
  eexists _, _, _, _, _.
  split; [exact Hab|]. split; [exact Hbc|]. split; [exact Hl|].
  split; [exact Hr|]. split; [exact Hflat|]. split; [|split].
  - intros fs'. split; [|split].
    + by rewrite (add_len fs fs' _ _ _ _ _ Hlab Hc Hl).
    + rewrite (add_len fs fs' _ _ _ _ _ Ha Hlbc Hr). f_equal. lia.
    + unfold concat_ in Hflat.
      rewrite (ConcatDataset_len fs fs' _ _ _ Hflat Hlens). f_equal.
      unfold sum. simpl. lia.
  - intros fs' i.
    rewrite (add_get_example fs fs' _ _ _ _ _ i Hlab Hc Hl).
    rewrite (add_get_example fs fs' _ _ _ _ _ i Ha Hlbc Hr).
    rewrite (concat3_get_example fs fs' _ _ _ _ _ _ _ i Ha Hb Hc Hflat).
    rewrite (add_get_example fs fs' _ _ _ _ _ i Ha Hb Hab).
    rewrite (add_get_example fs fs' _ _ _ _ _ (i - la) Hb Hc Hbc).
    replace (la + (lb + lc)) with (la + lb + lc) by lia.
    repeat match goal with
           | |- context [?x <? ?y] => destruct (Z.ltb_spec x y)
           end; try lia; split; try done; f_equal; lia.
  - intros fs'. rewrite !iter_ConcatDataset. cbn [mapM].
    rewrite !iter_ConcatDataset. cbn [mapM].
    destruct (iter fs' a) as [xa|]; [|done].
    destruct (iter fs' b) as [xb|]; [|done].
    destruct (iter fs' c) as [xc|]; [|done].
    cbn [bind concat]. rewrite !app_nil_r. by rewrite <- app_assoc.
Qed.

Lemma concat_associative_witness :
  let fs := Examples.example_fs in
  len fs Examples.numbers = Ok 3 /\ len fs Examples.xy = Ok 2 /\
  len fs Examples.abc = Ok 3 /\
  exists ab bc l r flat,
    add fs Examples.numbers Examples.xy = Ok ab /\
    add fs Examples.xy Examples.abc = Ok bc /\
    add fs ab Examples.abc = Ok l /\ add fs Examples.numbers bc = Ok r /\
    concat_ fs Examples.numbers [Examples.xy; Examples.abc] = Ok flat /\
    (forall fs', len fs' l = Ok (3 + 2 + 3) /\
                 len fs' r = Ok (3 + 2 + 3) /\
                 len fs' flat = Ok (3 + 2 + 3)) /\
    (forall fs' i, get_example fs' l i = get_example fs' flat i /\
                   get_example fs' r i = get_example fs' flat i) /\
    (forall fs', iter fs' l = iter fs' flat /\ iter fs' r = iter fs' flat).
Proof.
  intros fs.
  assert (len fs Examples.numbers = Ok 3) as H1 by (vm_compute; reflexivity).
  assert (len fs Examples.xy = Ok 2) as H2 by (vm_compute; reflexivity).
  assert (len fs Examples.abc = Ok 3) as H3 by (vm_compute; reflexivity).
  split; [exact H1|]. split; [exact H2|]. split; [exact H3|].
  exact (concat_associative fs _ _ _ 3 2 3 H1 H2 H3).
Defined.

(** ** Maps *)

Section MapFacts.
Context {A : Type}.
Implicit Types (d u : dataset A) (src : source A) (fs : filesystem).
Implicit Types (f g : elem A -> elem A) (fl : list (elem A -> elem A)).

Lemma snapshot_agrees_not_cache fs u i :
  is_CacheDataset u = false -> snapshot_agrees fs u i.
Proof. by destruct u. Qed.

(** The answer of a node over the source of [u] whose list extends that of
    [u] by [h]. *)
Lemma get_example_extended fs u h i :
  snapshot_agrees fs u i ->
  get_example fs (MapDataset (get_dataset u) (inherited_funcs u ++ h)) i
  = (let* x := get_example fs u i in Ok (apply_map_funcs h x)).
Proof.
  intros Hagree. rewrite (get_example_via_source fs u i Hagree).
  cbn [get_example].
  destruct (source_getitem fs (get_dataset u) i); [|done]. cbn [bind].
  by rewrite apply_map_funcs_app.
Qed.

Lemma len_map fs u f : len fs (map_ u f) = len fs u.
Proof. rewrite map_unfold. by destruct u. Qed.

Lemma iter_map fs u f :
  is_CacheDataset u = false ->
  iter fs (map_ u f) = (let* xs := iter fs u in Ok (f <$> xs)).
Proof.
  intros Hu. rewrite map_unfold.
  destruct u as [src|ds lengths offsets|src fl|src fl cache|p|ps];
    try done; unfold inherited_funcs;
    cbn [as_MapDataset get_dataset iter source_iter app].
  - destruct (source_iter fs src) as [xs|]; [|done]. cbn [bind].
    rewrite <- list_fmap_compose. f_equal. apply list_fmap_ext.
    intros _ x _. apply apply_map_funcs_app.
Qed.

Lemma get_example_map fs u f i :
  snapshot_agrees fs u i ->
  get_example fs (map_ u f) i = (let* x := get_example fs u i in Ok (f x)).
Proof.
  intros Hu. rewrite map_unfold. by rewrite get_example_extended.
Qed.

Lemma fold_map_MapDataset src l fl :
  fold_left map_ fl (MapDataset src l) = MapDataset src (l ++ fl).
Proof.
  revert l. induction fl as [|f fl IH]; intros l; cbn [fold_left].
  - by rewrite app_nil_r.
  - rewrite map_unfold, inherited_funcs_MapDataset. cbn [get_dataset].
    rewrite IH. by rewrite <- app_assoc.
Qed.

End MapFacts.

(** X15: a map keeps the length of its upstream, and over an upstream that
    is not a cache node it iterates the upstream's elements, each through
    the function, in the upstream's order, and answers every index with the
    function applied to what the upstream answers, failing where it fails. *)
Theorem map_keeps_length_and_order {A : Type} (fs : filesystem) (u : dataset A)
    (f : elem A -> elem A) :
  len fs (map_ u f) = len fs u /\
  (is_CacheDataset u = false ->
   iter fs (map_ u f) = (let* xs := iter fs u in Ok (f <$> xs)) /\
   forall i, get_example fs (map_ u f) i
             = (let* x := get_example fs u i in Ok (f x))).
Proof.
  split; [apply len_map|]. intros Hu. split; [by apply iter_map|].
  intros i. by apply get_example_map, snapshot_agrees_not_cache.
Qed.

Lemma map_keeps_length_and_order_witness :
  let fs := Examples.example_fs in
  let c := ConcatDataset [Examples.numbers; Examples.xy] [3; 5] [0; 3] in
  is_CacheDataset c = false /\
  len fs (map_ c Examples.double) = len fs c /\
  iter fs (map_ c Examples.double)
    = (let* xs := iter fs c in Ok (Examples.double <$> xs)) /\
  iter fs (map_ c Examples.double)
    = Ok [Atom 2; Atom 4; Atom 6; Str "x"; Str "y"].
Proof.
  intros fs c.
  destruct (map_keeps_length_and_order fs c Examples.double) as [Hlen Hrest].
  destruct (Hrest eq_refl) as [Hiter _].
  split; [reflexivity|]. split; [exact Hlen|]. split; [exact Hiter|].
  vm_compute. reflexivity.
Defined.

(** X16: mapping with the functions of a non-empty list, one [map] call
    after the other, builds a single node over the source of the upstream
    whose list is the upstream's followed by those functions; it answers an
    index with them applied in order to what the upstream answers. *)
Theorem map_chain_flattens {A : Type} (u : dataset A)
    (fl : list (elem A -> elem A)) :
  fl <> [] ->
  fold_left map_ fl u = MapDataset (get_dataset u) (inherited_funcs u ++ fl) /\
  forall fs i, snapshot_agrees fs u i ->
    get_example fs (fold_left map_ fl u) i
    = (let* x := get_example fs u i in Ok (apply_map_funcs fl x)).
Proof.
  intros Hne.
  assert (fold_left map_ fl u
          = MapDataset (get_dataset u) (inherited_funcs u ++ fl)) as Heq.
  { destruct fl as [|f fl]; [done|]. cbn [fold_left].
    rewrite map_unfold, fold_map_MapDataset. by rewrite <- app_assoc. }
  split; [exact Heq|]. intros fs i Hagree. rewrite Heq.
  by apply get_example_extended.
Qed.

Lemma map_chain_flattens_witness :
  let fs := Examples.example_fs in
  let fl := [Examples.double; Examples.increment; MoreExamples.negate] in
  fl <> [] /\
  fold_left map_ fl Examples.numbers
    = MapDataset (Raw [Atom 1; Atom 2; Atom 3]) fl /\
  snapshot_agrees fs Examples.numbers 2 /\
  get_example fs (fold_left map_ fl Examples.numbers) 2 = Ok (Atom (-7)).
Proof.
  intros fs fl.
  assert (fl <> []) as Hne by done.
  destruct (map_chain_flattens Examples.numbers fl Hne) as [Heq Hget].
  split; [exact Hne|]. split; [exact Heq|]. split; [exact I|].
  rewrite (Hget fs 2 I). reflexivity.
Defined.

(** X17: mapping the concatenation of two datasets that are not cache
    nodes gives what concatenating their maps gives: the same length, the
    same answer at every index, the same iteration. *)
Theorem map_distributes_over_add {A : Type} (fs : filesystem)
    (a b c : dataset A) (f : elem A -> elem A) :
  is_CacheDataset a = false -> is_CacheDataset b = false ->
  add fs a b = Ok c ->
  exists c',
    add fs (map_ a f) (map_ b f) = Ok c' /\
    (forall fs', len fs' c' = len fs' (map_ c f)) /\
    (forall fs' i, get_example fs' c' i = get_example fs' (map_ c f) i) /\
    (forall fs', iter fs' c' = iter fs' (map_ c f)).
Proof.
  intros Ha Hb Hc.
  destruct (ConcatDataset_init_Ok _ _ _ Hc) as (lens & Hlens & _ & Hceq).
  cbn [mapM] in Hlens.
  apply bind_Ok in Hlens as (la & Hla & (lens' & Hlens & [= <-])%bind_Ok).
  apply bind_Ok in Hlens as (lb & Hlb & [= <-]).
  assert (is_CacheDataset c = false) as Hcc by (by rewrite Hceq).
  pose proof (len_map fs a f) as Hma. rewrite Hla in Hma.
  pose proof (len_map fs b f) as Hmb. rewrite Hlb in Hmb.
  destruct (add_Ok fs _ _ la lb Hma Hmb) as [Hc' _].
  eexists. split; [exact Hc'|]. split; [|split].
  - intros fs'. rewrite len_map.
    rewrite (add_len fs fs' _ _ _ _ _ Hma Hmb Hc').
    by rewrite (add_len fs fs' _ _ _ _ _ Hla Hlb Hc).
  - intros fs' i.
    rewrite (get_example_map fs' c f i) by (by apply snapshot_agrees_not_cache).
    rewrite (add_get_example fs fs' _ _ _ _ _ i Hma Hmb Hc').
    rewrite (add_get_example fs fs' _ _ _ _ _ i Hla Hlb Hc).
    rewrite !get_example_map by (by apply snapshot_agrees_not_cache).
    by repeat match goal with
              | |- context [?x <? ?y] => destruct (Z.ltb_spec x y)
              end.
  - intros fs'. rewrite (iter_map fs' c f Hcc). rewrite Hceq.
    rewrite !iter_ConcatDataset. cbn [mapM].
    rewrite !iter_map by done.
    destruct (iter fs' a) as [xa|]; [|done].
    destruct (iter fs' b) as [xb|]; [|done].
    cbn [bind concat]. by rewrite !app_nil_r, fmap_app.
Qed.

Lemma map_distributes_over_add_witness :
  let fs := Examples.example_fs in
  let c := ConcatDataset [Examples.numbers; Examples.xy] [3; 5] [0; 3] in
  is_CacheDataset Examples.numbers = false /\
  is_CacheDataset Examples.xy = false /\
  add fs Examples.numbers Examples.xy = Ok c /\
  exists c',
    add fs (map_ Examples.numbers Examples.double)
           (map_ Examples.xy Examples.double) = Ok c' /\
    (forall fs', len fs' c' = len fs' (map_ c Examples.double)) /\
    (forall fs' i, get_example fs' c' i
                   = get_example fs' (map_ c Examples.double) i) /\
    (forall fs', iter fs' c' = iter fs' (map_ c Examples.double)).
Proof.
  intros fs c.
  assert (add fs Examples.numbers Examples.xy = Ok c) as Hc
    by (vm_compute; reflexivity).
  split; [reflexivity|]. split; [reflexivity|]. split; [exact Hc|].
  exact (map_distributes_over_add fs Examples.numbers Examples.xy c
           Examples.double eq_refl eq_refl Hc).
Defined.

(** X18: wrapping a dataset in a plain [Dataset] keeps its length; wrapping
    twice is wrapping once; and the wrapper of a dataset that is not a
    [MapDataset] iterates and answers every index as the dataset does. *)
Theorem Dataset_wrapper {A : Type} (fs : filesystem) (d : dataset A) :
  len fs (Dataset_init (Node d)) = len fs d /\
  Dataset_init (Node (Dataset_init (Node d))) = Dataset_init (Node d) /\
  (is_MapDataset d = false ->
   iter fs (Dataset_init (Node d)) = iter fs d /\
   forall i, get_example fs (Dataset_init (Node d)) i = get_example fs d i).
Proof.
  split; [by destruct d|]. split; [by destruct d|].
  intros Hd. by destruct d.
Qed.

Lemma Dataset_wrapper_witness :
  let fs := Examples.example_fs in
  is_MapDataset Examples.abc = false /\
  iter fs (Dataset_init (Node Examples.abc)) = iter fs Examples.abc /\
  get_example fs (Dataset_init (Node Examples.abc)) 1 = Ok (Str "b").
Proof.
  intros fs.
  destruct (Dataset_wrapper fs Examples.abc) as (_ & _ & H).
  destruct (H eq_refl) as [Hiter Hget].
  split; [reflexivity|]. split; [exact Hiter|].
  rewrite Hget. vm_compute. reflexivity.
Defined.

(** ** Saving *)

Section SaveFacts.
Context {A : Type}.
Implicit Types (d S : dataset A) (fs : filesystem).

Lemma save_Ok (pickle_dumps : list (elem A) -> result string) fs S filename
    fs' c :
  save pickle_dumps fs S filename = Ok (fs', c) ->
  exists cache blob,
    list_ fs S = Ok cache /\ pickle_dumps cache = Ok blob /\
    fs' = <[filename := blob]> fs /\ c = CacheDataset_init (Node S) cache.
Proof.
  unfold save.
  intros (cache & Hcache & (blob & Hblob & [= <- <-])%bind_Ok)%bind_Ok.
  by exists cache, blob.
Qed.

Lemma len_CacheDataset_init fs S (cache : list (elem A)) :
  len fs (CacheDataset_init (Node S) cache) = len fs S.
Proof. unfold CacheDataset_init. by destruct S. Qed.


Lemma same_reads_insert fs d filename blob :
  filename ∉ files d -> same_reads fs (<[filename := blob]> fs) d.
Proof.
  intros Hfresh. apply (proj1 (frame_both fs (<[filename := blob]> fs))).
  intros p Hp. rewrite lookup_insert_ne; [done|]. by intros ->.
Qed.

End SaveFacts.

(** X19: a successful [save] changes the file system at [filename] and
    nowhere else, so every dataset that does not read [filename] has the
    same length, the same iteration and the same answers after it. *)
Theorem save_writes_one_file {A : Type}
    (pickle_dumps : list (elem A) -> result string)
    (fs fs' : filesystem) (S c : dataset A) (filename : string) :
  save pickle_dumps fs S filename = Ok (fs', c) ->
  (forall p, p <> filename -> fs' !! p = fs !! p) /\
  (forall d : dataset A, filename ∉ files d ->
     len fs' d = len fs d /\ iter fs' d = iter fs d /\
     forall i, get_example fs' d i = get_example fs d i).
Proof.
  intros (cache & blob & _ & _ & -> & _)%save_Ok. split.
  - intros p Hp. by rewrite lookup_insert_ne.
  - intros d Hfresh.
    destruct (same_reads_insert fs d filename blob Hfresh) as (Hl & Hi & Hg).
    split; [done|]. split; [done|]. intros i. by rewrite Hg.
Qed.

Lemma save_writes_one_file_witness :
  let fs := Examples.example_fs in
  let S := map_ Examples.numbers Examples.double in
  let blob := "3:i2;i4;i6;"%string in
  let fs' := <["abc.txt"%string := blob]> fs in
  save Examples.Codec.dumps fs S "abc.txt"
    = Ok (fs', CacheDataset_init (Node S) [Atom 2; Atom 4; Atom 6]) /\
("abc.txt"%string ∉ files Examples.xy) /\
  iter fs' Examples.xy = iter fs Examples.xy /\
  iter fs' Examples.abc = Ok [Str "3:i2;i4;i6;"].
Proof.
  intros fs S blob fs'.
  assert (save Examples.Codec.dumps fs S "abc.txt"
          = Ok (fs', CacheDataset_init (Node S) [Atom 2; Atom 4; Atom 6])) as Hsave.
  { unfold save.
    assert (list_ fs S = Ok [Atom 2; Atom 4; Atom 6]) as -> by reflexivity.
    cbn [bind].
    assert (Examples.Codec.dumps [Atom 2; Atom 4; Atom 6] = Ok blob) as ->
      by (vm_compute; reflexivity).
    reflexivity. }
  assert ("abc.txt"%string ∉ files Examples.xy) as Hfresh.
  { cbn [files Examples.xy]. intros Hin%list_elem_of_singleton. discriminate Hin. }
  destruct (save_writes_one_file _ _ _ _ _ _ Hsave) as [_ Hframe].
  split; [exact Hsave|]. split; [exact Hfresh|].
  split; [exact (proj1 (proj2 (Hframe Examples.xy Hfresh)))|].
  vm_compute. reflexivity.
Defined.

(** X20: saving the cache node that [save] returned succeeds and returns
    a cache node with the same source, function list and snapshot, when the
    first file written is not one the saved dataset reads. *)
Theorem save_of_saved_is_same_node {A : Type}
    (pickle_dumps : list (elem A) -> result string)
    (fs fs1 : filesystem) (S c : dataset A) (f1 f2 : string) :
  save pickle_dumps fs S f1 = Ok (fs1, c) -> f1 ∉ files S ->
  exists fs2, save pickle_dumps fs1 c f2 = Ok (fs2, c).
Proof.
  intros (cache & blob & Hlist & Hblob & -> & ->)%save_Ok Hfresh.
  apply list_Ok in Hlist as [[n Hn] Hiter].
  destruct (same_reads_insert fs S f1 blob Hfresh) as (Hl & _ & _).
  eexists. unfold save, list_. rewrite len_CacheDataset_init, <- Hl, Hn.
  cbn [bind].
  rewrite (proj1 (CacheDataset_reads_snapshot_aux _ S cache 0)). cbn [bind].
  rewrite Hblob. cbn [bind]. reflexivity.
Qed.

Lemma save_of_saved_is_same_node_witness :
  let fs := Examples.example_fs in
  let S := map_ Examples.abc Examples.double in
  let c := CacheDataset_init (Node S) [Str "a"; Str "b"; Str "c"] in
  let fs1 := <["one.pkl"%string := "3:s1:as1:bs1:c"%string]> fs in
  save Examples.Codec.dumps fs S "one.pkl" = Ok (fs1, c) /\
("one.pkl"%string ∉ files S) /\
  exists fs2, save Examples.Codec.dumps fs1 c "two.pkl" = Ok (fs2, c).
Proof.
  intros fs S c fs1.
  assert (save Examples.Codec.dumps fs S "one.pkl" = Ok (fs1, c)) as Hsave.
  { unfold save.
    assert (list_ fs S = Ok [Str "a"; Str "b"; Str "c"]) as ->
      by (vm_compute; reflexivity).
    cbn [bind].
    assert (Examples.Codec.dumps [Str "a"; Str "b"; Str "c"]
            = Ok "3:s1:as1:bs1:c"%string) as -> by (vm_compute; reflexivity).
    reflexivity. }
  assert ("one.pkl"%string ∉ files S) as Hfresh.
  { cbn. intros Hin%list_elem_of_singleton. discriminate Hin. }
  split; [exact Hsave|]. split; [exact Hfresh|].
  exact (save_of_saved_is_same_node _ _ _ _ _ _ "two.pkl" Hsave Hfresh).
Defined.

(** X21: a cache node reports the length of the dataset it was built on,
    whatever its snapshot holds, and is constructed with an empty length
    cache; built on a dataset that iterates as many elements as it reports,
    over the list that dataset drains into, it reports the snapshot's
    length. *)
Theorem CacheDataset_length {A : Type} (fs : filesystem) (u : dataset A)
    (cache : list (elem A)) :
  len fs (CacheDataset_init (Node u) cache) = len fs u /\
  _length (new (CacheDataset_init (Node u) cache)) = None /\
  (exact fs u -> iter fs u = Ok cache ->
   len fs (CacheDataset_init (Node u) cache) = Ok (Z.of_nat (length cache)) /\
   exact fs (CacheDataset_init (Node u) cache)).
Proof.
  split; [apply len_CacheDataset_init|]. split; [reflexivity|].
  intros (xs & Hxs & Hlen) Hcache. rewrite Hxs in Hcache. injection Hcache as ->.
  rewrite len_CacheDataset_init. split; [done|].
  exists cache. rewrite len_CacheDataset_init. split; [|done].
  apply (proj1 (CacheDataset_reads_snapshot_aux fs u cache 0)).
Qed.

Lemma CacheDataset_length_witness :
  let fs := Examples.example_fs in
  let cache := [Tuple ["a"; "x"]%string; Tuple ["b"; "y"]%string] in
  iter fs Examples.misaligned = Ok cache /\
  len fs (CacheDataset_init (Node Examples.misaligned) cache) = Ok 3 /\
  exact fs Examples.abc /\
  iter fs Examples.abc = Ok [Str "a"; Str "b"; Str "c"] /\
  len fs (CacheDataset_init (Node Examples.abc) [Str "a"; Str "b"; Str "c"])
    = Ok 3.
Proof.
  intros fs cache.
  destruct (CacheDataset_length fs Examples.misaligned cache) as (Hlen & _ & _).
  destruct (CacheDataset_length fs Examples.abc [Str "a"; Str "b"; Str "c"])
    as (_ & _ & Hexact).
  assert (exact fs Examples.abc) as Hex
    by (eexists; split; vm_compute; reflexivity).
  assert (iter fs Examples.abc = Ok [Str "a"; Str "b"; Str "c"]) as Hiter
    by (vm_compute; reflexivity).
  split; [vm_compute; reflexivity|].
  split; [rewrite Hlen; vm_compute; reflexivity|].
  split; [exact Hex|]. split; [exact Hiter|].
  exact (proj1 (Hexact Hex Hiter)).
Defined.



(** ** Slices of well-formed nodes *)








(** X24: on a well-formed node whose length is defined, a slice with a
    zero step fails with ValueError and every other slice succeeds, with as
    many elements as the range of its normalized indices. *)
Theorem slice_of_well_formed {A : Type} (fs : filesystem) (d : dataset A)
    (start stop step : option Z) (n : Z) :
  wf fs d -> len fs d = Ok n ->
  (step = Some 0 -> getitem fs d (Slice start stop step) = Raise ValueError) /\
  (step <> Some 0 ->
   exists r xs,
     Py.slice_indices start stop step n = Ok r /\
     getitem fs d (Slice start stop step) = Ok (Many xs) /\
     length xs = length (Py.range r.1.1 r.1.2 r.2)).
Proof.
  intros Hwf Hn. split.
  - intros ->. rewrite getitem_Slice, Hn. reflexivity.
  - intros Hstep.
    assert (exists r, Py.slice_indices start stop step n = Ok r) as [r Hr].
    { unfold Py.slice_indices. destruct step as [s|]; [|eauto].
      destruct (Z.eqb_spec s 0) as [->|]; [done|eauto]. }
    destruct (slice_total fs d start stop step n r Hwf Hn Hr) as (xs & Hxs & Hlen).
    by exists r, xs.
Qed.

Lemma slice_of_well_formed_witness :
  let fs := Examples.example_fs in
  wf fs Examples.abc /\ len fs Examples.abc = Ok 3 /\
  getitem fs Examples.abc (Slice None None (Some 0)) = Raise ValueError /\
  Some 2 <> Some 0 /\
  exists r xs,
    Py.slice_indices (Some (-5)) (Some 10) (Some 2) 3 = Ok r /\
    getitem fs Examples.abc (Slice (Some (-5)) (Some 10) (Some 2)) = Ok (Many xs) /\
    length xs = length (Py.range r.1.1 r.1.2 r.2).
Proof.
  intros fs.
  assert (len fs Examples.abc = Ok 3) as Hlen by (vm_compute; reflexivity).
  assert (Some 2 <> Some 0) as Hne by discriminate.
  destruct (slice_of_well_formed fs Examples.abc None None (Some 0) 3 I Hlen)
    as [Hzero _].
  destruct (slice_of_well_formed fs Examples.abc (Some (-5)) (Some 10) (Some 2)
              3 I Hlen) as [_ Hok].
  split; [exact I|]. split; [exact Hlen|]. split; [exact (Hzero eq_refl)|].
  split; [exact Hne|]. exact (Hok Hne).
Defined.

(** ** Well-formed nodes are closed under the operations *)

(** X25: the nodes the operations build from well-formed ones are well
    formed: a plain dataset over a list; a map or a plain wrapper of a node
    that is not a cache; the concatenation of two nodes that iterate as many
    elements as they report; the cache of the list a node drains into.
    Maps, concatenations and such caches also keep iterating as many
    elements as they report. *)
Theorem wf_closed_under_operations {A : Type} (fs : filesystem) :
  (forall xs : list (elem A),
     wf fs (Dataset_init (Raw xs)) /\ exact fs (Dataset_init (Raw xs))) /\
  (forall (u : dataset A) f, is_CacheDataset u = false ->
     (wf fs u -> wf fs (map_ u f) /\ wf fs (Dataset_init (Node u))) /\
     (exact fs u -> exact fs (map_ u f))) /\
  (forall a b c : dataset A,
     wf fs a -> exact fs a -> wf fs b -> exact fs b -> add fs a b = Ok c ->
     wf fs c /\ exact fs c) /\
  (forall (S : dataset A) cache,
     wf fs S -> iter fs S = Ok cache ->
     wf fs (CacheDataset_init (Node S) cache) /\
     (exact fs S -> exact fs (CacheDataset_init (Node S) cache))).
Proof.
  split; [|split; [|split]].
  - intros xs. split; [exact I|apply exact_Dataset_Raw].
  - intros u f Hu. split.
    + intros Hwf. rewrite map_unfold. by destruct u.
    + intros (xs & Hxs & Hlen). exists (f <$> xs).
      rewrite iter_map, Hxs, len_map, length_fmap by done. done.
  - intros a b c Ha Hea Hb Heb Hc. split.
    + destruct (ConcatDataset_init_Ok _ _ _ Hc) as (lens & _ & _ & Hceq).
      rewrite Hceq. apply wf_ConcatDataset. split; [by rewrite <- Hceq|].
      by repeat constructor.
    + apply (exact_ConcatDataset fs [a; b] c Hc). by repeat constructor.
  - intros S cache Hwf Hiter. split; [by apply wf_CacheDataset_init|].
    intros (xs & Hxs & Hlen). rewrite Hiter in Hxs. injection Hxs as <-.
    exists cache. rewrite len_CacheDataset_init. split; [|done].
    apply (proj1 (CacheDataset_reads_snapshot_aux fs S cache 0)).
Qed.

Lemma wf_closed_under_operations_witness :
  let fs := Examples.example_fs in
  let c := ConcatDataset [Examples.numbers; Examples.abc] [3; 6] [0; 3] in
  wf fs Examples.numbers /\ exact fs Examples.numbers /\
  wf fs Examples.abc /\ exact fs Examples.abc /\
  add fs Examples.numbers Examples.abc = Ok c /\
  wf fs c /\ exact fs c /\ is_CacheDataset c = false /\
  wf fs (map_ c Examples.double) /\ exact fs (map_ c Examples.double).
Proof.
  intros fs c.
  destruct (wf_closed_under_operations (A:=Z) fs) as (_ & Hmap & Hadd & _).
  assert (exact fs Examples.numbers) as He1 by (eexists; split; reflexivity).
  assert (exact fs Examples.abc) as He2
    by (eexists; split; vm_compute; reflexivity).
  assert (add fs Examples.numbers Examples.abc = Ok c) as Hc
    by (vm_compute; reflexivity).
  assert (wf fs Examples.numbers) as Hw1 by exact I.
  assert (wf fs Examples.abc) as Hw2 by exact I.
  destruct (Hadd Examples.numbers Examples.abc c Hw1 He1 Hw2 He2 Hc)
    as [Hwf Hex].
  destruct (Hmap c Examples.double eq_refl) as [Hwfm Hexm].
  split; [exact Hw1|]. split; [exact He1|]. split; [exact Hw2|].
  split; [exact He2|].
  split; [exact Hc|]. split; [exact Hwf|]. split; [exact Hex|].
  split; [reflexivity|]. split; [exact (proj1 (Hwfm Hwf))|exact (Hexm Hex)].
Defined.

(** ** Function lists of sibling maps *)

Lemma MapDataset_init_lists_fresh {A : Type}
    (σ : gmap positive (list (elem A -> elem A))) (f : elem A -> elem A) :
  exists σ' l',
    MapDataset_init_lists σ None f = Some (σ', l') /\
    σ !! l' = None /\ σ' !! l' = Some [f] /\
    (forall k, k <> l' -> σ' !! k = σ !! k).
Proof.
  unfold MapDataset_init_lists.
  pose proof (is_fresh (dom σ)) as Hfresh. apply not_elem_of_dom in Hfresh.
  eexists _, _. split; [reflexivity|]. split; [done|]. split.
  - by rewrite lookup_insert_eq.
  - intros k Hk. by rewrite lookup_insert_ne.
Qed.

(** X26: the function lists of maps are separate list objects.  A map of
    a dataset that is not a [MapDataset] allocates a list holding its one
    function and touches no other list.  Two maps of the same [MapDataset]
    get two new lists, each the upstream's list followed by its own
    function; the upstream's list and every other list keep their
    content. *)
Theorem map_branches_independent {A : Type}
    (σ : gmap positive (list (elem A -> elem A))) (f g : elem A -> elem A) :
  (exists σ' l',
     MapDataset_init_lists σ None f = Some (σ', l') /\
     σ !! l' = None /\ σ' !! l' = Some [f] /\
     (forall k, k <> l' -> σ' !! k = σ !! k)) /\
  (forall l fl, σ !! l = Some fl ->
   exists σ1 l1 σ2 l2,
     MapDataset_init_lists σ (Some l) f = Some (σ1, l1) /\
     MapDataset_init_lists σ1 (Some l) g = Some (σ2, l2) /\
     l1 <> l /\ l2 <> l /\ l1 <> l2 /\
     σ2 !! l = Some fl /\
     σ2 !! l1 = Some (fl ++ [f]) /\ σ2 !! l2 = Some (fl ++ [g]) /\
     (forall k, k <> l1 -> k <> l2 -> σ2 !! k = σ !! k)).
Proof.
  split; [apply MapDataset_init_lists_fresh|].
  intros l fl Hl.
  destruct (MapDataset_init_lists_copy σ l fl f Hl)
    as (σ1 & l1 & H1 & Hne1 & Hfree1 & Hnew1 & Hold1).
  assert (σ1 !! l = Some fl) as Hl1 by (rewrite Hold1; [done|congruence]).
  destruct (MapDataset_init_lists_copy σ1 l fl g Hl1)
    as (σ2 & l2 & H2 & Hne2 & Hfree2 & Hnew2 & Hold2).
  assert (l1 <> l2) as Hne12 by congruence.
  exists σ1, l1, σ2, l2.
  split; [done|]. split; [done|]. split; [done|]. split; [done|].
  split; [done|]. split; [by rewrite Hold2 by congruence|].
  split; [by rewrite Hold2 by congruence|]. split; [done|].
  intros k Hk1 Hk2. rewrite Hold2 by done. by apply Hold1.
Qed.

Lemma map_branches_independent_witness :
  let σ : gmap positive (list (elem Z -> elem Z)) :=
    {[ 1%positive := [Examples.double] ]} in
  σ !! 1%positive = Some [Examples.double] /\
  exists σ1 l1 σ2 l2,
    MapDataset_init_lists σ (Some 1%positive) Examples.increment = Some (σ1, l1) /\
    MapDataset_init_lists σ1 (Some 1%positive) MoreExamples.negate = Some (σ2, l2) /\
    l1 <> 1%positive /\ l2 <> 1%positive /\ l1 <> l2 /\
    σ2 !! 1%positive = Some [Examples.double] /\
    σ2 !! l1 = Some [Examples.double; Examples.increment] /\
    σ2 !! l2 = Some [Examples.double; MoreExamples.negate].
Proof.
  intros σ.
  assert (σ !! 1%positive = Some [Examples.double]) as Hl by reflexivity.
  destruct (map_branches_independent σ Examples.increment MoreExamples.negate)
    as [_ Hboth].
  destruct (Hboth 1%positive [Examples.double] Hl)
    as (σ1 & l1 & σ2 & l2 & H1 & H2 & Hn1 & Hn2 & Hn12 & Hu & Hf & Hg & _).
  split; [exact Hl|]. exists σ1, l1, σ2, l2.
  split; [exact H1|]. split; [exact H2|]. split; [exact Hn1|].
  split; [exact Hn2|]. split; [exact Hn12|]. split; [exact Hu|].
  split; [exact Hf|exact Hg].
Defined.

(** ** What a loaded dataset reports *)

(** X27: after a [save] whose blob unpickles to the drained list, the
    loaded dataset reports the number of elements that were drained and
    answers every index as the cache node [save] returned does, on any file
    system; the cache node itself goes on reporting the length of the
    saved dataset. *)
Theorem loaded_dataset_counts_elements {A : Type}
    (pickle_dumps : list (elem A) -> result string)
    (pickle_loads : string -> result (list (elem A)))
    (fs : filesystem) (S : dataset A) (filename : string)
    (xs : list (elem A)) (blob : string) :
  all fs S = Ok xs -> pickle_dumps xs = Ok blob -> pickle_loads blob = Ok xs ->
  exists fs' c d,
    save pickle_dumps fs S filename = Ok (fs', c) /\
    load pickle_loads fs' filename = Ok d /\
    (forall fs'', len fs'' d = Ok (Z.of_nat (length xs)) /\
                  len fs'' c = len fs'' S /\
                  iter fs'' d = Ok xs /\ iter fs'' c = Ok xs) /\
    (forall fs'' i, get_example fs'' d i = get_example fs'' c i).
Proof.
  intros Hall Hdumps Hloads.
  exists (<[filename := blob]> fs), (CacheDataset_init (Node S) xs),
         (Dataset_init (Raw xs)).
  split; [|split; [|split]].
  - unfold save. unfold all in Hall. rewrite Hall. cbn [bind].
    by rewrite Hdumps.
  - unfold load, File.open. rewrite lookup_insert_eq. cbn [bind].
    by rewrite Hloads.
  - intros fs''. split; [|split; [|split]].
    + destruct (exact_Dataset_Raw fs'' xs) as (ys & Hys & Hlen).
      injection Hys as <-. exact Hlen.
    + apply len_CacheDataset_init.
    + done.
    + apply (proj1 (CacheDataset_reads_snapshot_aux fs'' S xs 0)).
  - intros fs'' i. symmetry.
    apply (proj2 (CacheDataset_reads_snapshot_aux fs'' S xs i)).
Qed.

Lemma loaded_dataset_counts_elements_witness :
  let fs := Examples.example_fs in
  let xs : list (elem Z) := [Str "p"; Str "q"] in
  let blob := "2:s1:ps1:q"%string in
  all fs Examples.mac = Ok xs /\ Examples.Codec.dumps xs = Ok blob /\
  Examples.Codec.loads blob = Ok xs /\
  exists fs' c d,
    save Examples.Codec.dumps fs Examples.mac "snapshot.pkl" = Ok (fs', c) /\
    load Examples.Codec.loads fs' "snapshot.pkl" = Ok d /\
    len fs d = Ok 2 /\ len fs c = Ok 1.
Proof.
  intros fs xs blob.
  assert (all fs Examples.mac = Ok xs) as H1 by (vm_compute; reflexivity).
  assert (Examples.Codec.dumps xs = Ok blob) as H2 by (vm_compute; reflexivity).
  assert (Examples.Codec.loads blob = Ok xs) as H3 by (vm_compute; reflexivity).
  destruct (loaded_dataset_counts_elements Examples.Codec.dumps
              Examples.Codec.loads fs Examples.mac "snapshot.pkl" xs blob
              H1 H2 H3) as (fs' & c & d & Hsave & Hload & Hrep & _).
  split; [exact H1|]. split; [exact H2|]. split; [exact H3|].
  exists fs', c, d. split; [exact Hsave|]. split; [exact Hload|].
  destruct (Hrep fs) as (Hd & Hc & _). split; [exact Hd|].
  rewrite Hc. vm_compute. reflexivity.
Defined.

